(** * dali/util/nvml_wrap.cc: the run-time binding layer for libnvidia-ml

    A shallow embedding of the loader [wrapSymbols], the capability query
    [wrapHasCuda11NvmlFunctions] and the call shims generated by [FUNC_BODY],
    followed by the properties of the load / resolve / call machinery. *)

From Stdlib Require Import ZArith NArith String List Bool Lia.
Import ListNotations.

Open Scope string_scope.
Open Scope Z_scope.

(** ** Data model *)

(** A [void*] or function pointer: an address, 0 being [NULL]. *)
Definition ptr := N.
Definition NULL : ptr := 0%N.

(** [nvmlReturn_t] is the native status code. *)
Definition nvmlReturn_t := Z.

(** Modelled from the spec: nvml.h is not part of the sources; the
    library-defined success sentinel is the enumerator of value 0. *)
Definition NVML_SUCCESS : nvmlReturn_t := 0.

(** The two-valued result of the binding layer. *)
Inductive DALIError_t := DALISuccess | DALIError.

(** One name per file-local function pointer [nvmlInternal...]: the lvalue
    that the macros [LOAD_SYM] and [FUNC_BODY] receive. *)
Inductive Slot :=
| pInit
| pShutdown
| pDeviceGetHandleByPciBusId
| pDeviceGetHandleByIndex
| pDeviceGetIndex
| pDeviceSetCpuAffinity
| pDeviceClearCpuAffinity
| pSystemGetDriverVersion
| pDeviceGetCpuAffinity
| pDeviceGetCpuAffinityWithinScope
| pDeviceGetBrand
| pDeviceGetCount_v2
| pDeviceGetHandleByIndex_v2
| pDeviceGetCudaComputeCapability
| pErrorString.

Definition Slot_eq_dec (a b : Slot) : {a = b} + {a <> b}.
Proof. decide equality. Defined.

Definition Slot_eqb (a b : Slot) : bool :=
  if Slot_eq_dec a b then true else false.

(** The globals of the translation unit (all zero-initialised), the static
    local [nvmlhandle] of [wrapSymbols], and the error buffer that the
    dynamic loader keeps for [dlerror]. *)
Record State := mkState {
  symbolsLoaded : Z;
  nvmlhandle : ptr;
  nvmlInternalInit : ptr;
  nvmlInternalShutdown : ptr;
  nvmlInternalDeviceGetHandleByPciBusId : ptr;
  nvmlInternalDeviceGetHandleByIndex : ptr;
  nvmlInternalDeviceGetIndex : ptr;
  nvmlInternalDeviceSetCpuAffinity : ptr;
  nvmlInternalDeviceClearCpuAffinity : ptr;
  nvmlInternalSystemGetDriverVersion : ptr;
  nvmlInternalDeviceGetCpuAffinity : ptr;
  nvmlInternalDeviceGetCpuAffinityWithinScope : ptr;
  nvmlInternalDeviceGetBrand : ptr;
  nvmlInternalDeviceGetCount_v2 : ptr;
  nvmlInternalDeviceGetHandleByIndex_v2 : ptr;
  nvmlInternalDeviceGetCudaComputeCapability : ptr;
  nvmlInternalErrorString : ptr;
  dl_error : option string
}.

Definition initial_state : State :=
  mkState 0 NULL NULL NULL NULL NULL NULL NULL NULL NULL NULL NULL NULL NULL
          NULL NULL NULL None.

(** Reading the function pointer designated by a slot. *)
Definition get_slot (f : Slot) (st : State) : ptr :=
  match f with
  | pInit => nvmlInternalInit st
  | pShutdown => nvmlInternalShutdown st
  | pDeviceGetHandleByPciBusId => nvmlInternalDeviceGetHandleByPciBusId st
  | pDeviceGetHandleByIndex => nvmlInternalDeviceGetHandleByIndex st
  | pDeviceGetIndex => nvmlInternalDeviceGetIndex st
  | pDeviceSetCpuAffinity => nvmlInternalDeviceSetCpuAffinity st
  | pDeviceClearCpuAffinity => nvmlInternalDeviceClearCpuAffinity st
  | pSystemGetDriverVersion => nvmlInternalSystemGetDriverVersion st
  | pDeviceGetCpuAffinity => nvmlInternalDeviceGetCpuAffinity st
  | pDeviceGetCpuAffinityWithinScope =>
      nvmlInternalDeviceGetCpuAffinityWithinScope st
  | pDeviceGetBrand => nvmlInternalDeviceGetBrand st
  | pDeviceGetCount_v2 => nvmlInternalDeviceGetCount_v2 st
  | pDeviceGetHandleByIndex_v2 => nvmlInternalDeviceGetHandleByIndex_v2 st
  | pDeviceGetCudaComputeCapability =>
      nvmlInternalDeviceGetCudaComputeCapability st
  | pErrorString => nvmlInternalErrorString st
  end.

(** Writing through the slot ([*cast = tmp], [funcptr = nullptr]). *)
Definition set_slot (f : Slot) (v : ptr) (st : State) : State :=
  let upd g := if Slot_eqb f g then v else get_slot g st in
  mkState (symbolsLoaded st) (nvmlhandle st)
          (upd pInit) (upd pShutdown) (upd pDeviceGetHandleByPciBusId)
          (upd pDeviceGetHandleByIndex) (upd pDeviceGetIndex)
          (upd pDeviceSetCpuAffinity) (upd pDeviceClearCpuAffinity)
          (upd pSystemGetDriverVersion) (upd pDeviceGetCpuAffinity)
          (upd pDeviceGetCpuAffinityWithinScope) (upd pDeviceGetBrand)
          (upd pDeviceGetCount_v2) (upd pDeviceGetHandleByIndex_v2)
          (upd pDeviceGetCudaComputeCapability) (upd pErrorString)
          (dl_error st).

Definition set_symbolsLoaded (v : Z) (st : State) : State :=
  mkState v (nvmlhandle st)
          (nvmlInternalInit st) (nvmlInternalShutdown st)
          (nvmlInternalDeviceGetHandleByPciBusId st)
          (nvmlInternalDeviceGetHandleByIndex st)
          (nvmlInternalDeviceGetIndex st)
          (nvmlInternalDeviceSetCpuAffinity st)
          (nvmlInternalDeviceClearCpuAffinity st)
          (nvmlInternalSystemGetDriverVersion st)
          (nvmlInternalDeviceGetCpuAffinity st)
          (nvmlInternalDeviceGetCpuAffinityWithinScope st)
          (nvmlInternalDeviceGetBrand st)
          (nvmlInternalDeviceGetCount_v2 st)
          (nvmlInternalDeviceGetHandleByIndex_v2 st)
          (nvmlInternalDeviceGetCudaComputeCapability st)
          (nvmlInternalErrorString st) (dl_error st).

Definition set_nvmlhandle (v : ptr) (st : State) : State :=
  mkState (symbolsLoaded st) v
          (nvmlInternalInit st) (nvmlInternalShutdown st)
          (nvmlInternalDeviceGetHandleByPciBusId st)
          (nvmlInternalDeviceGetHandleByIndex st)
          (nvmlInternalDeviceGetIndex st)
          (nvmlInternalDeviceSetCpuAffinity st)
          (nvmlInternalDeviceClearCpuAffinity st)
          (nvmlInternalSystemGetDriverVersion st)
          (nvmlInternalDeviceGetCpuAffinity st)
          (nvmlInternalDeviceGetCpuAffinityWithinScope st)
          (nvmlInternalDeviceGetBrand st)
          (nvmlInternalDeviceGetCount_v2 st)
          (nvmlInternalDeviceGetHandleByIndex_v2 st)
          (nvmlInternalDeviceGetCudaComputeCapability st)
          (nvmlInternalErrorString st) (dl_error st).

Definition set_dl_error (v : option string) (st : State) : State :=
  mkState (symbolsLoaded st) (nvmlhandle st)
          (nvmlInternalInit st) (nvmlInternalShutdown st)
          (nvmlInternalDeviceGetHandleByPciBusId st)
          (nvmlInternalDeviceGetHandleByIndex st)
          (nvmlInternalDeviceGetIndex st)
          (nvmlInternalDeviceSetCpuAffinity st)
          (nvmlInternalDeviceClearCpuAffinity st)
          (nvmlInternalSystemGetDriverVersion st)
          (nvmlInternalDeviceGetCpuAffinity st)
          (nvmlInternalDeviceGetCpuAffinityWithinScope st)
          (nvmlInternalDeviceGetBrand st)
          (nvmlInternalDeviceGetCount_v2 st)
          (nvmlInternalDeviceGetHandleByIndex_v2 st)
          (nvmlInternalDeviceGetCudaComputeCapability st)
          (nvmlInternalErrorString st) v.

(** ** The process environment

    What the dynamic loader, the native library and the CUDA runtime answer.
    The environment may differ from one call to the next. *)
Record World := mkWorld {
  (** [dlopen(name, RTLD_NOW)]: the handle, or [NULL]. *)
  dlopen_result : string -> ptr;
  (** the text the loader records when that [dlopen] fails *)
  dlopen_message : string -> string;
  (** [dlsym(handle, symbol)]: the address, or [NULL]. *)
  dlsym_result : ptr -> string -> ptr;
  (** the text the loader records when that [dlsym] returns null; [None]
      when it records none (the symbol exists and its value is null) *)
  dlsym_message : ptr -> string -> option string;
  (** the status returned by the native code at an address *)
  native_status : ptr -> list Z -> nvmlReturn_t;
  (** the C string returned by the native code at an address when it is
      called at the type of [nvmlErrorString] *)
  native_string : ptr -> nvmlReturn_t -> string;
  (** [cudaDriverGetVersion]: its [cudaError_t] and the version written *)
  cuda_driver_version : Z * Z
}.

(** What a call does that the outside can observe. *)
Inductive Event :=
| EvDlopen (name : string)
| EvDlsym (handle : ptr) (symbol : string)
| EvDlerror
| EvCudaDriverGetVersion
| EvNative (f : ptr) (args : list Z)
| EvNativeString (f : ptr) (code : nvmlReturn_t)
| EvWarn (msg : string).

(** How a call ends: it returns, it throws ([DALI_FAIL], [CUDA_CALL]), or it
    uses a null pointer (a call through it, or a null C string), which is
    undefined behaviour. *)
Inductive Outcome (A : Type) :=
| Ret (a : A)
| Throw (msg : string)
| Undefined.
Arguments Ret {A} a.
Arguments Throw {A} msg.
Arguments Undefined {A}.

(** ** A monad for the code: environment, globals, trace, abrupt exits *)
Definition M (A : Type) : Type :=
  World -> State -> Outcome A * State * list Event.

Definition ret {A} (a : A) : M A := fun _ st => (Ret a, st, []).

Definition bind {A B} (m : M A) (k : A -> M B) : M B :=
  fun w st =>
    match m w st with
    | (Ret a, st1, t1) =>
        match k a w st1 with
        | (o, st2, t2) => (o, st2, (t1 ++ t2)%list)
        end
    | (Throw msg, st1, t1) => (Throw msg, st1, t1)
    | (Undefined, st1, t1) => (Undefined, st1, t1)
    end.

Declare Scope m_scope.
Delimit Scope m_scope with m.
Notation "x <- c1 ;; c2" := (bind c1 (fun x => c2))
  (at level 100, c1 at next level, right associativity) : m_scope.
Notation "c1 ;;; c2" := (bind c1 (fun _ => c2))
  (at level 100, right associativity) : m_scope.
Open Scope m_scope.

Definition gets {A} (f : State -> A) : M A := fun _ st => (Ret (f st), st, []).
Definition modify (f : State -> State) : M unit :=
  fun _ st => (Ret tt, f st, []).
Definition emit (e : Event) : M unit := fun _ st => (Ret tt, st, [e]).
Definition ask {A} (f : World -> A) : M A := fun w st => (Ret (f w), st, []).
Definition throw {A} (msg : string) : M A := fun _ st => (Throw msg, st, []).
Definition undefined {A} : M A := fun _ st => (Undefined, st, []).

Fixpoint forM_ {A} (l : list A) (body : A -> M unit) : M unit :=
  match l with
  | [] => ret tt
  | a :: l' => body a ;;; forM_ l' body
  end.

Definition outcome {A} (r : Outcome A * State * list Event) : Outcome A :=
  fst (fst r).
Definition final {A} (r : Outcome A * State * list Event) : State :=
  snd (fst r).
Definition trace {A} (r : Outcome A * State * list Event) : list Event :=
  snd r.

(** ** The collaborators: dynamic loader, error macros, native calls *)

(** [dlopen(name, RTLD_NOW)]; a failure leaves its text for [dlerror]. *)
Definition dlopen (name : string) : M ptr :=
  emit (EvDlopen name) ;;;
  h <- ask (fun w => dlopen_result w name) ;;
  (if N.eqb h NULL
   then msg <- ask (fun w => dlopen_message w name) ;;
        modify (set_dl_error (Some msg))
   else ret tt) ;;;
  ret h.

(** [dlsym(handle, symbol)]; a null result leaves for [dlerror] the text of
    the failure, or nothing when the loader reports no error (a symbol
    whose value is null). *)
Definition dlsym (handle : ptr) (symbol : string) : M ptr :=
  emit (EvDlsym handle symbol) ;;;
  p <- ask (fun w => dlsym_result w handle symbol) ;;
  (if N.eqb p NULL
   then msg <- ask (fun w => dlsym_message w handle symbol) ;;
        modify (set_dl_error msg)
   else ret tt) ;;;
  ret p.

(** [dlerror()]: the text of the last failure ([None] is the null C string),
    cleared by the call. *)
Definition dlerror : M (option string) :=
  emit EvDlerror ;;;
  e <- gets dl_error ;;
  modify (set_dl_error None) ;;;
  ret e.

(** Modelled from the spec: the macro DALI_FAIL (dali/core/error_handling.h
    is not part of the sources) is the hard, abort-style failure; the
    exception carries the text passed to the macro. *)
Definition DALI_FAIL {A} (str : string) : M A := throw str.

(** Modelled from the spec: the macro DALI_WARN (same header) is the soft
    warning; the diagnostic is the text passed to the macro. *)
Definition DALI_WARN (str : string) : M unit := emit (EvWarn str).

(** Modelled from the spec: the macro CUDA_CALL (dali/core/cuda_error.h is
    not part of the sources) throws unless the code is [cudaSuccess], 0. *)
Definition CUDA_CALL (code : Z) : M unit :=
  if code =? 0 then ret tt else throw "CUDA runtime API error".

(** A call through a function pointer returning [nvmlReturn_t]. *)
Definition call_status (f : ptr) (args : list Z) : M nvmlReturn_t :=
  if N.eqb f NULL then undefined
  else emit (EvNative f args) ;;; ask (fun w => native_status w f args).

(** A call through a function pointer of the type of [nvmlErrorString]. *)
Definition call_string (f : ptr) (r : nvmlReturn_t) : M string :=
  if N.eqb f NULL then undefined
  else emit (EvNativeString f r) ;;; ask (fun w => native_string w f r).

(** ** The loader *)

(** A value as an [int] holds it: 32 bits, two's complement. *)
Definition int32 (z : Z) : Z :=
  (z + 2147483648) mod 4294967296 - 2147483648.

(** [int] arithmetic: each product and the sum wrap around. *)
Definition is_driver_sufficient (min_cuda_major min_cuda_minor : Z) : M bool :=
  emit EvCudaDriverGetVersion ;;;
  r <- ask cuda_driver_version ;;
  CUDA_CALL (fst r) ;;;
  let driver_version := int32 (snd r) in
  ret (int32 (int32 (1000 * int32 min_cuda_major)
              + int32 (10 * int32 min_cuda_minor)) <=? driver_version).

(** The macro [LOAD_SYM(handle, symbol, funcptr)]; [handle] is the expression
    the macro is given, read where the macro is expanded. *)
Definition LOAD_SYM (handle : State -> ptr) (symbol : string) (funcptr : Slot)
  : M unit :=
  h <- gets handle ;;
  tmp <- dlsym h symbol ;;
  (if N.eqb tmp NULL
   then e <- dlerror ;;
        match e with
        | Some err => DALI_FAIL ("dlsym failed on " ++ symbol ++ " - " ++ err)
        | None => undefined
        end
   else ret tt) ;;;
  modify (set_slot funcptr tmp).

(** The macro [LOAD_SYM_MIN_DRIVER(handle, symbol, funcptr, cuda_M, cuda_m)].
    The file defines it and expands it nowhere. *)
Definition LOAD_SYM_MIN_DRIVER (handle : State -> ptr) (symbol : string)
    (funcptr : Slot) (cuda_M cuda_m : Z) : M unit :=
  ok <- is_driver_sufficient cuda_M cuda_m ;;
  if negb ok then modify (set_slot funcptr NULL)
  else
    h <- gets handle ;;
    tmp <- dlsym h symbol ;;
    (if N.eqb tmp NULL
     then e <- dlerror ;;
          match e with
          | Some err => DALI_FAIL ("dlsym failed on " ++ symbol ++ " - " ++ err)
          | None => undefined
          end
     else ret tt) ;;;
    modify (set_slot funcptr tmp).

(** The [LOAD_SYM] lines of [wrapSymbols], in source order. *)
Definition required_symbols : list (string * Slot) :=
  [ ("nvmlInit", pInit);
    ("nvmlShutdown", pShutdown);
    ("nvmlDeviceGetHandleByPciBusId", pDeviceGetHandleByPciBusId);
    ("nvmlDeviceGetHandleByIndex", pDeviceGetHandleByIndex);
    ("nvmlDeviceGetIndex", pDeviceGetIndex);
    ("nvmlDeviceSetCpuAffinity", pDeviceSetCpuAffinity);
    ("nvmlDeviceClearCpuAffinity", pDeviceClearCpuAffinity);
    ("nvmlSystemGetDriverVersion", pSystemGetDriverVersion);
    ("nvmlDeviceGetCpuAffinity", pDeviceGetCpuAffinity);
    ("nvmlErrorString", pErrorString) ].

(** The [LOAD_SYM] lines under [#if (CUDART_VERSION >= 11000)]. *)
Definition cuda11_symbols : list (string * Slot) :=
  [ ("nvmlDeviceGetCpuAffinityWithinScope", pDeviceGetCpuAffinityWithinScope);
    ("nvmlDeviceGetBrand", pDeviceGetBrand);
    ("nvmlDeviceGetCount_v2", pDeviceGetCount_v2);
    ("nvmlDeviceGetHandleByIndex_v2", pDeviceGetHandleByIndex_v2);
    ("nvmlDeviceGetCudaComputeCapability", pDeviceGetCudaComputeCapability) ].

Definition non_null (p : ptr) : bool := negb (N.eqb p NULL).

Section Build.

(** The compile-time constant of the CUDA runtime headers. *)
Variable CUDART_VERSION : Z.

Definition cuda11_build : bool := 11000 <=? CUDART_VERSION.

(** The [LOAD_SYM] lines that the preprocessor leaves in [wrapSymbols] in
    this build, in order. *)
Definition load_order : list (string * Slot) :=
  (required_symbols ++ (if cuda11_build then cuda11_symbols else []))%list.

Definition wrapHasCuda11NvmlFunctions : M bool :=
  if cuda11_build then
    gets (fun st =>
            non_null (nvmlInternalDeviceGetCount_v2 st) &&
            non_null (nvmlInternalDeviceGetHandleByIndex_v2 st) &&
            non_null (nvmlInternalDeviceGetCudaComputeCapability st) &&
            non_null (nvmlInternalDeviceGetBrand st))
  else ret false.

Definition wrapSymbols : M DALIError_t :=
  loaded <- gets symbolsLoaded ;;
  if negb (loaded =? 0) then ret DALISuccess
  else
    h <- dlopen "libnvidia-ml.so" ;;
    modify (set_nvmlhandle h) ;;;
    h1 <- gets nvmlhandle ;;
    (if N.eqb h1 NULL
     then h' <- dlopen "libnvidia-ml.so.1" ;;
          modify (set_nvmlhandle h') ;;;
          h2 <- gets nvmlhandle ;;
          if N.eqb h2 NULL
          then DALI_FAIL "Failed to open libnvidia-ml.so[.1]"
          else ret tt
     else ret tt) ;;;
    forM_ load_order
          (fun '(symbol, funcptr) => LOAD_SYM nvmlhandle symbol funcptr) ;;;
    modify (set_symbolsLoaded 1) ;;;
    ret DALISuccess.

End Build.

(** ** The call shim *)

(** [#INTERNAL_FUNC]: the spelling of the macro argument. *)
Definition stringify (f : Slot) : string :=
  match f with
  | pInit => "nvmlInternalInit"
  | pShutdown => "nvmlInternalShutdown"
  | pDeviceGetHandleByPciBusId => "nvmlInternalDeviceGetHandleByPciBusId"
  | pDeviceGetHandleByIndex => "nvmlInternalDeviceGetHandleByIndex"
  | pDeviceGetIndex => "nvmlInternalDeviceGetIndex"
  | pDeviceSetCpuAffinity => "nvmlInternalDeviceSetCpuAffinity"
  | pDeviceClearCpuAffinity => "nvmlInternalDeviceClearCpuAffinity"
  | pSystemGetDriverVersion => "nvmlInternalSystemGetDriverVersion"
  | pDeviceGetCpuAffinity => "nvmlInternalDeviceGetCpuAffinity"
  | pDeviceGetCpuAffinityWithinScope =>
      "nvmlInternalDeviceGetCpuAffinityWithinScope"
  | pDeviceGetBrand => "nvmlInternalDeviceGetBrand"
  | pDeviceGetCount_v2 => "nvmlInternalDeviceGetCount_v2"
  | pDeviceGetHandleByIndex_v2 => "nvmlInternalDeviceGetHandleByIndex_v2"
  | pDeviceGetCudaComputeCapability =>
      "nvmlInternalDeviceGetCudaComputeCapability"
  | pErrorString => "nvmlInternalErrorString"
  end.

(** The macro [FUNC_BODY(INTERNAL_FUNC, ARGS...)]. *)
Definition FUNC_BODY (INTERNAL_FUNC : Slot) (ARGS : list Z) : M DALIError_t :=
  f <- gets (get_slot INTERNAL_FUNC) ;;
  if N.eqb f NULL then ret DALIError
  else
    r <- call_status f ARGS ;;
    if negb (r =? NVML_SUCCESS)
    then es <- gets nvmlInternalErrorString ;;
         s <- call_string es r ;;
         DALI_WARN (stringify INTERNAL_FUNC ++ "(...) failed: " ++ s) ;;;
         ret DALIError
    else ret DALISuccess.

(** The wrappers; pointers and integers among the arguments are passed as
    the numbers they are. *)
Definition wrapNvmlInit : M DALIError_t :=
  FUNC_BODY pInit [].

Definition wrapNvmlShutdown : M DALIError_t :=
  FUNC_BODY pShutdown [].

Definition wrapNvmlDeviceGetHandleByPciBusId (pciBusId device : Z)
  : M DALIError_t :=
  FUNC_BODY pDeviceGetHandleByPciBusId [pciBusId; device].

Definition wrapNvmlDeviceGetHandleByIndex (device_id device : Z)
  : M DALIError_t :=
  FUNC_BODY pDeviceGetHandleByIndex [device_id; device].

Definition wrapNvmlDeviceGetIndex (device index : Z) : M DALIError_t :=
  FUNC_BODY pDeviceGetIndex [device; index].

Definition wrapNvmlDeviceSetCpuAffinity (device : Z) : M DALIError_t :=
  FUNC_BODY pDeviceSetCpuAffinity [device].

Definition wrapNvmlDeviceClearCpuAffinity (device : Z) : M DALIError_t :=
  FUNC_BODY pDeviceClearCpuAffinity [device].

Definition wrapNvmlSystemGetDriverVersion (name length : Z) : M DALIError_t :=
  FUNC_BODY pSystemGetDriverVersion [name; length].

Definition wrapNvmlDeviceGetCpuAffinity (device cpuSetSize cpuSet : Z)
  : M DALIError_t :=
  FUNC_BODY pDeviceGetCpuAffinity [device; cpuSetSize; cpuSet].

(** The five wrappers below exist under [#if (CUDART_VERSION >= 11000)]. *)
Definition wrapNvmlDeviceGetCpuAffinityWithinScope
    (device nodeSetSize nodeSet scope : Z) : M DALIError_t :=
  FUNC_BODY pDeviceGetCpuAffinityWithinScope
            [device; nodeSetSize; nodeSet; scope].

Definition wrapNvmlDeviceGetBrand (device type : Z) : M DALIError_t :=
  FUNC_BODY pDeviceGetBrand [device; type].

Definition wrapNvmlDeviceGetCount_v2 (deviceCount : Z) : M DALIError_t :=
  FUNC_BODY pDeviceGetCount_v2 [deviceCount].

Definition wrapNvmlDeviceGetHandleByIndex_v2 (index device : Z)
  : M DALIError_t :=
  FUNC_BODY pDeviceGetHandleByIndex_v2 [index; device].

Definition wrapNvmlDeviceGetCudaComputeCapability (device major minor : Z)
  : M DALIError_t :=
  FUNC_BODY pDeviceGetCudaComputeCapability [device; major; minor].

(** A call of one of the wrappers, with its arguments. *)
Inductive Wrapper :=
| WInit
| WShutdown
| WDeviceGetHandleByPciBusId (pciBusId device : Z)
| WDeviceGetHandleByIndex (device_id device : Z)
| WDeviceGetIndex (device index : Z)
| WDeviceSetCpuAffinity (device : Z)
| WDeviceClearCpuAffinity (device : Z)
| WSystemGetDriverVersion (name length : Z)
| WDeviceGetCpuAffinity (device cpuSetSize cpuSet : Z)
| WDeviceGetCpuAffinityWithinScope (device nodeSetSize nodeSet scope : Z)
| WDeviceGetBrand (device type : Z)
| WDeviceGetCount_v2 (deviceCount : Z)
| WDeviceGetHandleByIndex_v2 (index device : Z)
| WDeviceGetCudaComputeCapability (device major minor : Z).

Definition wrap (c : Wrapper) : M DALIError_t :=
  match c with
  | WInit => wrapNvmlInit
  | WShutdown => wrapNvmlShutdown
  | WDeviceGetHandleByPciBusId a b => wrapNvmlDeviceGetHandleByPciBusId a b
  | WDeviceGetHandleByIndex a b => wrapNvmlDeviceGetHandleByIndex a b
  | WDeviceGetIndex a b => wrapNvmlDeviceGetIndex a b
  | WDeviceSetCpuAffinity a => wrapNvmlDeviceSetCpuAffinity a
  | WDeviceClearCpuAffinity a => wrapNvmlDeviceClearCpuAffinity a
  | WSystemGetDriverVersion a b => wrapNvmlSystemGetDriverVersion a b
  | WDeviceGetCpuAffinity a b c => wrapNvmlDeviceGetCpuAffinity a b c
  | WDeviceGetCpuAffinityWithinScope a b c d =>
      wrapNvmlDeviceGetCpuAffinityWithinScope a b c d
  | WDeviceGetBrand a b => wrapNvmlDeviceGetBrand a b
  | WDeviceGetCount_v2 a => wrapNvmlDeviceGetCount_v2 a
  | WDeviceGetHandleByIndex_v2 a b => wrapNvmlDeviceGetHandleByIndex_v2 a b
  | WDeviceGetCudaComputeCapability a b c =>
      wrapNvmlDeviceGetCudaComputeCapability a b c
  end.

(** The function pointer a wrapper goes through, and what it forwards. *)
Definition slot_of (c : Wrapper) : Slot :=
  match c with
  | WInit => pInit
  | WShutdown => pShutdown
  | WDeviceGetHandleByPciBusId _ _ => pDeviceGetHandleByPciBusId
  | WDeviceGetHandleByIndex _ _ => pDeviceGetHandleByIndex
  | WDeviceGetIndex _ _ => pDeviceGetIndex
  | WDeviceSetCpuAffinity _ => pDeviceSetCpuAffinity
  | WDeviceClearCpuAffinity _ => pDeviceClearCpuAffinity
  | WSystemGetDriverVersion _ _ => pSystemGetDriverVersion
  | WDeviceGetCpuAffinity _ _ _ => pDeviceGetCpuAffinity
  | WDeviceGetCpuAffinityWithinScope _ _ _ _ =>
      pDeviceGetCpuAffinityWithinScope
  | WDeviceGetBrand _ _ => pDeviceGetBrand
  | WDeviceGetCount_v2 _ => pDeviceGetCount_v2
  | WDeviceGetHandleByIndex_v2 _ _ => pDeviceGetHandleByIndex_v2
  | WDeviceGetCudaComputeCapability _ _ _ => pDeviceGetCudaComputeCapability
  end.

Definition args_of (c : Wrapper) : list Z :=
  match c with
  | WInit | WShutdown => []
  | WDeviceGetHandleByPciBusId a b | WDeviceGetHandleByIndex a b
  | WDeviceGetIndex a b | WSystemGetDriverVersion a b
  | WDeviceGetBrand a b | WDeviceGetHandleByIndex_v2 a b => [a; b]
  | WDeviceSetCpuAffinity a | WDeviceClearCpuAffinity a
  | WDeviceGetCount_v2 a => [a]
  | WDeviceGetCpuAffinity a b c
  | WDeviceGetCudaComputeCapability a b c => [a; b; c]
  | WDeviceGetCpuAffinityWithinScope a b c d => [a; b; c; d]
  end.

(** ** The process: calls into the translation unit, one after the other *)

(** The five CUDA 11 wrappers are among the calls in every build; where the
    build lacks them their pointers stay null and they return [DALIError]. *)
Inductive Call :=
| CallWrapSymbols
| CallHasCuda11NvmlFunctions
| CallWrapper (c : Wrapper).

Inductive Value :=
| VResult (r : DALIError_t)
| VBool (b : bool).

Definition exec (CUDART_VERSION : Z) (c : Call) : M Value :=
  match c with
  | CallWrapSymbols => r <- wrapSymbols CUDART_VERSION ;; ret (VResult r)
  | CallHasCuda11NvmlFunctions =>
      b <- wrapHasCuda11NvmlFunctions CUDART_VERSION ;; ret (VBool b)
  | CallWrapper c => r <- wrap c ;; ret (VResult r)
  end.

(** The states a process can be in: it starts from the zero-initialised
    globals and makes calls, each in the environment of its moment; a call
    that throws leaves the globals as they are at the throw. *)
Inductive reachable (CUDART_VERSION : Z) : State -> Prop :=
| reachable_start : reachable CUDART_VERSION initial_state
| reachable_call st w c :
    reachable CUDART_VERSION st ->
    outcome (exec CUDART_VERSION c w st) <> Undefined ->
    reachable CUDART_VERSION (final (exec CUDART_VERSION c w st)).

(** Substring test, for statements about what a message contains. *)
Fixpoint contains (needle hay : string) : bool :=
  String.prefix needle hay ||
  match hay with
  | EmptyString => false
  | String _ hay' => contains needle hay'
  end.

(** ** Stub environments for concrete runs *)

(** The address exported under a name, null when there is none. *)
Definition lookup (s : string) (l : list (string * ptr)) : ptr :=
  match find (fun e => String.eqb (fst e) s) l with
  | Some e => snd e
  | None => NULL
  end.

(** A stub library: opened under the names in [names] at handle 4096,
    exporting the symbols of [exports] at the given addresses; every status
    function returns [status], every string function returns [text]. *)
Definition stub_world (names : list string) (exports : list (string * ptr))
    (status : nvmlReturn_t) (text : string) (driver_version : Z) : World :=
  mkWorld
    (fun name => if existsb (String.eqb name) names then 4096%N else NULL)
    (fun name => name ++ ": cannot open shared object file")
    (fun h s => if N.eqb h 4096 then lookup s exports else NULL)
    (fun h s => Some ("undefined symbol: " ++ s))
    (fun _ _ => status)
    (fun _ _ => text)
    (0, driver_version).

(** Addresses 101, 102, ... for the given symbol names. *)
Fixpoint number_from (a : N) (l : list string) : list (string * ptr) :=
  match l with
  | [] => []
  | s :: l' => (s, a) :: number_from (N.succ a) l'
  end.

Definition all_symbol_names : list string :=
  map fst (required_symbols ++ cuda11_symbols)%list.

Definition full_exports : list (string * ptr) :=
  number_from 101 all_symbol_names.

Definition exports_without (missing : string) : list (string * ptr) :=
  filter (fun e => negb (String.eqb (fst e) missing)) full_exports.

(** Named stubs.  Each is a library at handle 4096 exporting symbols at
    addresses 101 ([nvmlInit]), 102 ([nvmlShutdown]), ... in load order. *)

(** Found under the versioned name only; exports everything; every native
    call succeeds. *)
Definition stub_complete : World :=
  stub_world ["libnvidia-ml.so.1"] full_exports 0 "Success" 11040.

(** Exports everything; every native call fails with status 3. *)
Definition stub_failing : World :=
  stub_world ["libnvidia-ml.so"] full_exports 3 "Not Supported" 11040.

(** Omits [nvmlDeviceGetBrand]; the driver is a CUDA 10.2 one. *)
Definition stub_without_brand : World :=
  stub_world ["libnvidia-ml.so"] (exports_without "nvmlDeviceGetBrand")
             0 "Success" 10020.

(** Omits [nvmlShutdown]; every native call fails with status 3. *)
Definition stub_without_shutdown : World :=
  stub_world ["libnvidia-ml.so"] (exports_without "nvmlShutdown")
             3 "Not Supported" 10020.

(** Omits [nvmlDeviceGetIndex]; every native call succeeds. *)
Definition stub_without_index : World :=
  stub_world ["libnvidia-ml.so"] (exports_without "nvmlDeviceGetIndex")
             0 "Success" 11040.

(** Omits [nvmlErrorString]; every native call fails with status 3. *)
Definition stub_without_ErrorString : World :=
  stub_world ["libnvidia-ml.so"] (exports_without "nvmlErrorString")
             3 "Not Supported" 11040.

(** No library under either name. *)
Definition stub_absent : World :=
  stub_world [] full_exports 0 "Success" 10020.

(** ** Vocabulary of the statements *)

(** How a [LOAD_SYM] line ends when [dlsym] returns null: it throws with
    the loader's text, or, the loader having recorded none, it appends the
    null string that [dlerror] returns, which is undefined behaviour. *)
Definition missing_symbol_outcome {A} (w : World) (h : ptr) (s : string)
  : Outcome A :=
  match dlsym_message w h s with
  | Some err => Throw ("dlsym failed on " ++ s ++ " - " ++ err)
  | None => Undefined
  end.

(** The operation a wrapper stands for: what its three names share, the
    wrapper [wrapNvml<Op>], the function pointer [nvmlInternal<Op>] and the
    exported symbol [nvml<Op>]. *)
Definition operation (c : Wrapper) : string :=
  match c with
  | WInit => "Init"
  | WShutdown => "Shutdown"
  | WDeviceGetHandleByPciBusId _ _ => "DeviceGetHandleByPciBusId"
  | WDeviceGetHandleByIndex _ _ => "DeviceGetHandleByIndex"
  | WDeviceGetIndex _ _ => "DeviceGetIndex"
  | WDeviceSetCpuAffinity _ => "DeviceSetCpuAffinity"
  | WDeviceClearCpuAffinity _ => "DeviceClearCpuAffinity"
  | WSystemGetDriverVersion _ _ => "SystemGetDriverVersion"
  | WDeviceGetCpuAffinity _ _ _ => "DeviceGetCpuAffinity"
  | WDeviceGetCpuAffinityWithinScope _ _ _ _ =>
      "DeviceGetCpuAffinityWithinScope"
  | WDeviceGetBrand _ _ => "DeviceGetBrand"
  | WDeviceGetCount_v2 _ => "DeviceGetCount_v2"
  | WDeviceGetHandleByIndex_v2 _ _ => "DeviceGetHandleByIndex_v2"
  | WDeviceGetCudaComputeCapability _ _ _ => "DeviceGetCudaComputeCapability"
  end.

(** The values an [int] holds. *)
Definition in_int (z : Z) : Prop := -2147483648 <= z <= 2147483647.

(** The right-hand side of the comparison in [is_driver_sufficient], as
    [int] arithmetic computes it. *)
Definition driver_threshold (min_cuda_major min_cuda_minor : Z) : Z :=
  int32 (int32 (1000 * int32 min_cuda_major)
         + int32 (10 * int32 min_cuda_minor)).

(** One [LOAD_SYM] line of [wrapSymbols]. *)
Definition load_line : string * Slot -> M unit :=
  fun '(symbol, funcptr) => LOAD_SYM nvmlhandle symbol funcptr.

(** The [dlsym] calls of a run of lines that are all resolved. *)
Definition dlsym_events (h : ptr) (l : list (string * Slot)) : list Event :=
  map (fun e => EvDlsym h (fst e)) l.

(** [st'] is [st] with the lines [l] resolved through handle [h]: their
    slots hold what [dlsym] found, which is not null; no other slot moved. *)
Definition slots_resolved (w : World) (h : ptr) (l : list (string * Slot))
    (st st' : State) : Prop :=
  (forall s f, In (s, f) l ->
     get_slot f st' = dlsym_result w h s /\ dlsym_result w h s <> NULL) /\
  (forall g, ~ In g (map snd l) -> get_slot g st' = get_slot g st).

(** The handle [wrapSymbols] ends up with. *)
Definition opened_handle (w : World) : ptr :=
  let h := dlopen_result w "libnvidia-ml.so" in
  if N.eqb h NULL then dlopen_result w "libnvidia-ml.so.1" else h.

(** The [dlopen] calls: the second only after a null first. *)
Definition open_events (w : World) : list Event :=
  if N.eqb (dlopen_result w "libnvidia-ml.so") NULL
  then [EvDlopen "libnvidia-ml.so"; EvDlopen "libnvidia-ml.so.1"]
  else [EvDlopen "libnvidia-ml.so"].

(** The globals and the loader's buffer once the opening is over. *)
Definition after_open (w : World) (st : State) : State :=
  let h := dlopen_result w "libnvidia-ml.so" in
  if N.eqb h NULL
  then
    let st1 :=
      set_nvmlhandle h
        (set_dl_error (Some (dlopen_message w "libnvidia-ml.so")) st) in
    let h' := dlopen_result w "libnvidia-ml.so.1" in
    if N.eqb h' NULL
    then set_nvmlhandle h'
           (set_dl_error (Some (dlopen_message w "libnvidia-ml.so.1")) st1)
    else set_nvmlhandle h' st1
  else set_nvmlhandle h st.

(** The four ways through [FUNC_BODY]. *)
Definition shim_run (F : Slot) (ARGS : list Z) (w : World) (st : State)
  : Outcome DALIError_t * State * list Event :=
  let f := get_slot F st in
  let es := nvmlInternalErrorString st in
  let r := native_status w f ARGS in
  if N.eqb f NULL then (Ret DALIError, st, [])
  else if r =? NVML_SUCCESS then (Ret DALISuccess, st, [EvNative f ARGS])
  else if N.eqb es NULL then (Undefined, st, [EvNative f ARGS])
  else (Ret DALIError, st,
        [EvNative f ARGS; EvNativeString es r;
         EvWarn (stringify F ++ "(...) failed: " ++ native_string w es r)]).

(** The globals after a sequence of calls, each in its environment. *)
Fixpoint run (V : Z) (cs : list (World * Call)) (st : State) : State :=
  match cs with
  | [] => st
  | (w, c) :: cs' => run V cs' (final (exec V c w st))
  end.

(** What holds of the CUDA 11 pointers in every state of a process: the
    brand pointer is set only if the affinity-within-scope pointer, which
    is resolved just before it, is set; a build without the CUDA 11 lines
    never sets any of the five. *)
Definition cuda11_invariant (V : Z) (st : State) : Prop :=
  (get_slot pDeviceGetBrand st <> NULL ->
   get_slot pDeviceGetCpuAffinityWithinScope st <> NULL) /\
  (cuda11_build V = false ->
   forall g, In g (map snd cuda11_symbols) -> get_slot g st = NULL).

(** Every line of the load order has its pointer set once the flag is. *)
Definition loaded_invariant (V : Z) (st : State) : Prop :=
  symbolsLoaded st <> 0 ->
  forall s f, In (s, f) (load_order V) -> get_slot f st <> NULL.

(** The environment offers a library that [wrapSymbols] can load in this
    build: it opens under one of the two names and exports every symbol of
    the load order. *)
Definition library_complete (V : Z) (w : World) : bool :=
  non_null (opened_handle w) &&
  forallb (fun e => non_null (dlsym_result w (opened_handle w) (fst e)))
          (load_order V).

(** The calls into the dynamic loader. *)
Definition is_loader_event (e : Event) : bool :=
  match e with
  | EvDlopen _ | EvDlsym _ _ | EvDlerror => true
  | _ => false
  end.

(** A call other than [wrapSymbols]. *)
Definition not_a_load (c : Call) : bool :=
  match c with
  | CallWrapSymbols => false
  | _ => true
  end.

(** While the flag is clear, the pointer resolved last in a CUDA 11 build
    is null. *)
Definition last_pointer_invariant (st : State) : Prop :=
  symbolsLoaded st = 0 ->
  get_slot pDeviceGetCudaComputeCapability st = NULL.

(** The flag is 0 or 1, and 1 only with a library handle. *)
Definition flag_invariant (st : State) : Prop :=
  symbolsLoaded st = 0 \/ (symbolsLoaded st = 1 /\ nvmlhandle st <> NULL).

(** * Properties *)

(** ** Slots, globals and the monad *)

Lemma get_set_same f v st : get_slot f (set_slot f v st) = v.
Proof. destruct f; reflexivity. Qed.

Lemma get_set_other f g v st :
  f <> g -> get_slot g (set_slot f v st) = get_slot g st.
Proof. intros Hfg; destruct f, g; try reflexivity; congruence. Qed.

Lemma get_slot_set_nvmlhandle g h st :
  get_slot g (set_nvmlhandle h st) = get_slot g st.
Proof. destruct g; reflexivity. Qed.

Lemma get_slot_set_dl_error g e st :
  get_slot g (set_dl_error e st) = get_slot g st.
Proof. destruct g; reflexivity. Qed.

Lemma get_slot_set_symbolsLoaded g v st :
  get_slot g (set_symbolsLoaded v st) = get_slot g st.
Proof. destruct g; reflexivity. Qed.

Lemma bind_ret_l {A B} (a : A) (k : A -> M B) w st :
  bind (ret a) k w st = k a w st.
Proof. unfold bind, ret. destruct (k a w st) as [[o s] t]. reflexivity. Qed.

Lemma bind_ret_r {A} (m : M A) w st : bind m ret w st = m w st.
Proof.
  unfold bind, ret. destruct (m w st) as [[[a| |] s] t]; try reflexivity.
  now rewrite app_nil_r.
Qed.

Lemma bind_assoc {A B C} (m : M A) (f : A -> M B) (g : B -> M C) w st :
  bind (bind m f) g w st = bind m (fun a => bind (f a) g) w st.
Proof.
  unfold bind. destruct (m w st) as [[[a| |] s] t]; try reflexivity.
  destruct (f a w s) as [[[b| |] s'] t']; try reflexivity.
  destruct (g b w s') as [[o s''] t'']. now rewrite app_assoc.
Qed.

(** A [bind] returns only if both halves return. *)
Lemma bind_Ret_inv {A B} (m : M A) (k : A -> M B) w st b st' t :
  bind m k w st = (Ret b, st', t) ->
  exists a st1 t1 t2,
    m w st = (Ret a, st1, t1) /\ k a w st1 = (Ret b, st', t2) /\
    t = (t1 ++ t2)%list.
Proof.
  unfold bind. destruct (m w st) as [[[a| |] s] t1]; try discriminate.
  destruct (k a w s) as [[o s'] t2] eqn:Ek. intros [= -> -> <-].
  exists a, s, t1, t2. auto.
Qed.

Lemma bind_cong {A B} (m : M A) (k1 k2 : A -> M B) w st :
  (forall a st1, k1 a w st1 = k2 a w st1) ->
  bind m k1 w st = bind m k2 w st.
Proof.
  intros H. unfold bind. destruct (m w st) as [[[a| |] s] t]; try reflexivity.
  now rewrite H.
Qed.

Lemma forM__app {A} (l1 l2 : list A) (body : A -> M unit) w st :
  forM_ (l1 ++ l2) body w st
  = bind (forM_ l1 body) (fun _ => forM_ l2 body) w st.
Proof.
  revert st. induction l1 as [|a l1 IH]; intros st; simpl.
  - now rewrite bind_ret_l.
  - rewrite bind_assoc. apply bind_cong. intros _ st1. apply IH.
Qed.

(** ** Substrings *)

Lemma prefix_app a b : String.prefix a (a ++ b) = true.
Proof.
  induction a as [|c a IH]; simpl.
  - now destruct b.
  - destruct (Ascii.ascii_dec c c); [exact IH | congruence].
Qed.

Lemma prefix_refl a : String.prefix a a = true.
Proof.
  induction a as [|c a IH]; simpl; [reflexivity|].
  destruct (Ascii.ascii_dec c c); [exact IH | congruence].
Qed.

Lemma contains_prefix a s : String.prefix a s = true -> contains a s = true.
Proof. intros H. destruct s; cbn [contains]; now rewrite H. Qed.

Lemma contains_skip x p s : contains x s = true -> contains x (p ++ s) = true.
Proof.
  intros H. induction p as [|c p IH]; [exact H|].
  cbn [append contains]. rewrite IH. apply orb_true_r.
Qed.

Lemma contains_app needle pre post :
  contains needle (pre ++ needle ++ post) = true.
Proof. apply contains_skip, contains_prefix, prefix_app. Qed.

Lemma contains_suffix x p : contains x (p ++ x) = true.
Proof. apply contains_skip, contains_prefix, prefix_refl. Qed.

Lemma prefix_split a s :
  String.prefix a s = true -> exists post, s = a ++ post.
Proof.
  revert s. induction a as [|c a IH]; intros s H.
  - now exists s.
  - destruct s as [|d s]; [discriminate|]. simpl in H.
    destruct (Ascii.ascii_dec c d) as [->|]; [|discriminate].
    destruct (IH _ H) as [post ->]. now exists post.
Qed.

(** [contains] is the substring relation. *)
Lemma contains_iff needle hay :
  contains needle hay = true <->
  exists pre post, hay = pre ++ needle ++ post.
Proof.
  split.
  - induction hay as [|c hay IH]; cbn [contains]; rewrite orb_true_iff.
    + intros [H|H]; [|discriminate].
      destruct (prefix_split _ _ H) as [post ->]. now exists "", post.
    + intros [H|H].
      * destruct (prefix_split _ _ H) as [post ->]. now exists "", post.
      * destruct (IH H) as (pre & post & ->). now exists (String c pre), post.
  - intros (pre & post & ->). apply contains_app.
Qed.

(** ** The call shim *)

Lemma wrap_FUNC_BODY c : wrap c = FUNC_BODY (slot_of c) (args_of c).
Proof. destruct c; reflexivity. Qed.

Lemma FUNC_BODY_run F ARGS w st : FUNC_BODY F ARGS w st = shim_run F ARGS w st.
Proof.
  unfold FUNC_BODY, shim_run, bind, gets, call_status, call_string, DALI_WARN,
    emit, ask, ret, undefined.
  destruct (N.eqb (get_slot F st) NULL); [reflexivity|]. simpl.
  destruct (native_status w (get_slot F st) ARGS =? NVML_SUCCESS);
    [reflexivity|]. simpl.
  destruct (N.eqb (nvmlInternalErrorString st) NULL); reflexivity.
Qed.

Lemma wrap_run c w st : wrap c w st = shim_run (slot_of c) (args_of c) w st.
Proof. rewrite wrap_FUNC_BODY. apply FUNC_BODY_run. Qed.

Lemma shim_run_final F ARGS w st : final (shim_run F ARGS w st) = st.
Proof.
  unfold shim_run.
  destruct (N.eqb (get_slot F st) NULL); [reflexivity|].
  destruct (_ =? NVML_SUCCESS); [reflexivity|].
  destruct (N.eqb (nvmlInternalErrorString st) NULL); reflexivity.
Qed.

(** A wrapper writes to no global. *)
Lemma wrap_final c w st : final (wrap c w st) = st.
Proof. rewrite wrap_run. apply shim_run_final. Qed.

Lemma wrapHasCuda11NvmlFunctions_final V w st :
  final (wrapHasCuda11NvmlFunctions V w st) = st.
Proof.
  unfold wrapHasCuda11NvmlFunctions. destruct (cuda11_build V); reflexivity.
Qed.

(** The failure path calls through [nvmlInternalErrorString] whatever its
    value: with a null entry there the wrapper has undefined behaviour. *)
Lemma wrap_null_ErrorString c w st :
  get_slot (slot_of c) st <> NULL ->
  native_status w (get_slot (slot_of c) st) (args_of c) <> NVML_SUCCESS ->
  nvmlInternalErrorString st = NULL ->
  outcome (wrap c w st) = Undefined.
Proof.
  intros Hf Hr Hes. rewrite wrap_run. unfold shim_run.
  destruct (N.eqb_spec (get_slot (slot_of c) st) NULL); [contradiction|].
  destruct (Z.eqb_spec (native_status w (get_slot (slot_of c) st) (args_of c))
                       NVML_SUCCESS); [contradiction|].
  now rewrite Hes.
Qed.

(** The spelling of a wrapper's function pointer is [nvmlInternal]
    followed by its operation, and that pointer is the one [wrapSymbols]
    fills from the exported symbol [nvml] followed by the operation. *)
Lemma stringify_operation c :
  stringify (slot_of c) = "nvmlInternal" ++ operation c /\
  In ("nvml" ++ operation c, slot_of c) (required_symbols ++ cuda11_symbols).
Proof. destruct c; (split; [reflexivity|cbn; tauto]). Qed.

(** C2, counterexample. After a load from a library without
    [nvmlErrorString], the pointer of [wrapNvmlDeviceGetHandleByIndex] is
    set and [nvmlInternalErrorString] is null; the native call returns 3,
    not [NVML_SUCCESS], and the wrapper neither returns [DALIError] nor
    produces a diagnostic. *)
Lemma failing_wrapper_without_ErrorString_gives_no_diagnostic :
  let w := stub_without_ErrorString in
  let st := final (wrapSymbols 11000 w initial_state) in
  get_slot (slot_of (WDeviceGetHandleByIndex 0 4242)) st = 104%N /\
  nvmlInternalErrorString st = NULL /\
  native_status w 104%N [0; 4242] = 3 /\
  wrapNvmlDeviceGetHandleByIndex 0 4242 w st
  = (Undefined, st, [EvNative 104%N [0; 4242]]).
Proof. vm_compute. repeat split. Qed.

(** C2, amended. A wrapper whose function pointer is non-null calls the
    native function once, with the arguments as given, and returns
    [DALISuccess] exactly when the native status is [NVML_SUCCESS].  For any
    other status, [nvmlInternalErrorString] being resolved, it returns
    [DALIError] after one warning, "nvmlInternal<Op>(...) failed: <text>":
    the operation named by its function pointer, and the text that
    [nvmlInternalErrorString] returns for that status. *)
Theorem wrapper_result_follows_native_status c w st :
  get_slot (slot_of c) st <> NULL ->
  let f := get_slot (slot_of c) st in
  let es := nvmlInternalErrorString st in
  let r := native_status w f (args_of c) in
  let msg :=
    "nvmlInternal" ++ operation c ++ "(...) failed: " ++ native_string w es r
  in
  In ("nvml" ++ operation c, slot_of c) (required_symbols ++ cuda11_symbols)
  /\
  (outcome (wrap c w st) = Ret DALISuccess <-> r = NVML_SUCCESS) /\
  (r = NVML_SUCCESS ->
   wrap c w st = (Ret DALISuccess, st, [EvNative f (args_of c)])) /\
  (r <> NVML_SUCCESS -> es <> NULL ->
   wrap c w st
   = (Ret DALIError, st,
      [EvNative f (args_of c); EvNativeString es r; EvWarn msg])
   /\ contains ("nvmlInternal" ++ operation c) msg = true
   /\ contains (native_string w es r) msg = true).
Proof.
  intros Hf f es r msg. destruct (stringify_operation c) as [Hname Hin].
  split; [exact Hin|].
  rewrite wrap_run. unfold shim_run. fold f es r. rewrite Hname.
  destruct (N.eqb_spec f NULL) as [|_]; [contradiction|].
  destruct (Z.eqb_spec r NVML_SUCCESS) as [E|E].
  - split; [|split]; [tauto | reflexivity | contradiction].
  - split; [|split].
    + split; [|contradiction].
      destruct (N.eqb es NULL); discriminate.
    + contradiction.
    + intros _ Hes. destruct (N.eqb_spec es NULL) as [|_]; [contradiction|].
      split; [|split].
      * assert (Ea : forall a b d : string,
                  ((a ++ b) ++ d = a ++ b ++ d)%string).
        { intros a b d. induction a; cbn; [reflexivity|now f_equal]. }
        subst msg. now rewrite Ea.
      * subst msg.
        apply (contains_app ("nvmlInternal" ++ operation c) "").
      * subst msg. apply contains_skip, contains_skip, contains_suffix.
Qed.

(** C2, amended, after a load from a library whose native calls all fail
    with 3. *)
Lemma wrapper_result_follows_native_status_witness :
  let st := final (wrapSymbols 11000 stub_failing initial_state) in
  wrap (WDeviceGetBrand 7 8) stub_failing st
  = (Ret DALIError, st,
     [EvNative 112%N [7; 8]; EvNativeString 110%N 3;
      EvWarn "nvmlInternalDeviceGetBrand(...) failed: Not Supported"]).
Proof.
  assert (Hf : get_slot (slot_of (WDeviceGetBrand 7 8))
                 (final (wrapSymbols 11000 stub_failing initial_state))
               <> NULL) by (vm_compute; discriminate).
  destruct (wrapper_result_follows_native_status
              (WDeviceGetBrand 7 8) stub_failing _ Hf) as (_ & _ & _ & H).
  apply H; vm_compute; discriminate.
Defined.

(** ** The loader *)

Lemma LOAD_SYM_run w st symbol f :
  LOAD_SYM nvmlhandle symbol f w st =
  let h := nvmlhandle st in
  let p := dlsym_result w h symbol in
  if N.eqb p NULL
  then (missing_symbol_outcome w h symbol,
        set_dl_error None st, [EvDlsym h symbol; EvDlerror])
  else (Ret tt, set_slot f p st, [EvDlsym h symbol]).
Proof.
  cbv [LOAD_SYM dlsym dlerror DALI_FAIL bind gets modify emit ask throw ret].
  unfold missing_symbol_outcome.
  destruct (N.eqb (dlsym_result w (nvmlhandle st) symbol) NULL) eqn:E;
    cbv beta iota; rewrite E; [|reflexivity].
  destruct (dlsym_message w (nvmlhandle st) symbol); reflexivity.
Qed.

(** A run of [LOAD_SYM] lines either resolves them all, or stops at the
    first symbol that [dlsym] does not find, keeping what it has written. *)
Lemma resolve_pass w l :
  NoDup (map snd l) ->
  forall st,
  let h := nvmlhandle st in
  let r := forM_ l load_line w st in
  symbolsLoaded (final r) = symbolsLoaded st /\
  nvmlhandle (final r) = h /\
  ((outcome r = Ret tt /\ slots_resolved w h l st (final r) /\
    trace r = dlsym_events h l)
   \/
   (exists l1 s f l2,
      l = (l1 ++ (s, f) :: l2)%list /\ dlsym_result w h s = NULL /\
      outcome r = missing_symbol_outcome w h s /\
      slots_resolved w h l1 st (final r) /\
      trace r = (dlsym_events h l1 ++ [EvDlsym h s; EvDlerror])%list)).
Proof.
  induction l as [|[s f] l IH]; intros ND st h r.
  - subst r. cbn. split; [reflexivity|]. split; [reflexivity|]. left.
    split; [reflexivity|]. split; [|reflexivity].
    split; [intros ? ? []|reflexivity].
  - inversion ND as [|? ? Hnotin ND']; subst.
    subst r. cbn [forM_]. unfold bind. cbn [load_line].
    rewrite LOAD_SYM_run. cbv zeta. fold h.
    destruct (N.eqb_spec (dlsym_result w h s) NULL) as [E|E].
    + assert (Hm : forall B (k : unit -> Outcome B * State * list Event),
                match @missing_symbol_outcome unit w h s with
                | Ret a => k a
                | Throw msg =>
                    (Throw msg, set_dl_error None st,
                     [EvDlsym h s; EvDlerror])
                | Undefined =>
                    (Undefined, set_dl_error None st,
                     [EvDlsym h s; EvDlerror])
                end
                = (missing_symbol_outcome w h s, set_dl_error None st,
                   [EvDlsym h s; EvDlerror])).
      { intros B k. unfold missing_symbol_outcome.
        destruct (dlsym_message w h s); reflexivity. }
      rewrite Hm. cbn [outcome final trace fst snd].
      split; [reflexivity|]. split; [reflexivity|].
      right. exists [], s, f, l.
      split; [reflexivity|]. split; [exact E|]. split; [reflexivity|].
      split; [|reflexivity].
      split; [intros ? ? []|]. intros g _. apply get_slot_set_dl_error.
    + specialize (IH ND' (set_slot f (dlsym_result w h s) st)).
      cbv zeta in IH.
      replace (nvmlhandle (set_slot f (dlsym_result w h s) st)) with h in IH
        by reflexivity.
      destruct (forM_ l load_line w (set_slot f (dlsym_result w h s) st))
        as [[o st'] t] eqn:Er.
      unfold outcome, final, trace in *. cbn [fst snd] in *.
      destruct IH as (HL & HH & IH). split; [exact HL|]. split; [exact HH|].
      destruct IH as [(Ho & (Hin & Hout) & Ht)
                     |(l1 & s1 & f1 & l2 & -> & Hn & Ho & (Hin & Hout) & Ht)].
      * left. subst o t. split; [reflexivity|]. split; [|reflexivity].
        split.
        -- intros s0 f0 [[= <- <-]|H]; [|apply (Hin _ _ H)].
           rewrite (Hout _ Hnotin), get_set_same. auto.
        -- intros g Hg. cbn in Hg. rewrite Hout by tauto.
           apply get_set_other. tauto.
      * right. exists ((s, f) :: l1), s1, f1, l2. subst o t.
        assert (Hnotin1 : ~ In f (map snd l1)).
        { intros Hf. apply Hnotin. rewrite map_app, in_app_iff. tauto. }
        split; [reflexivity|]. split; [exact Hn|]. split; [reflexivity|].
        split; [|reflexivity]. split.
        -- intros s0 f0 [[= <- <-]|H]; [|apply (Hin _ _ H)].
           rewrite (Hout _ Hnotin1), get_set_same. auto.
        -- intros g Hg. cbn in Hg. rewrite Hout by tauto.
           apply get_set_other. tauto.
Qed.

Lemma wrapSymbols_loaded V w st :
  symbolsLoaded st <> 0 -> wrapSymbols V w st = (Ret DALISuccess, st, []).
Proof.
  intros H. cbv [wrapSymbols bind gets].
  destruct (Z.eqb_spec (symbolsLoaded st) 0); [contradiction|]. reflexivity.
Qed.

Lemma wrapSymbols_not_loaded V w st :
  symbolsLoaded st = 0 ->
  wrapSymbols V w st =
  if N.eqb (opened_handle w) NULL
  then (Throw "Failed to open libnvidia-ml.so[.1]", after_open w st,
        open_events w)
  else
    match forM_ (load_order V) load_line w (after_open w st) with
    | (Ret _, st1, t) =>
        (Ret DALISuccess, set_symbolsLoaded 1 st1, (open_events w ++ t)%list)
    | (Throw msg, st1, t) => (Throw msg, st1, (open_events w ++ t)%list)
    | (Undefined, st1, t) => (Undefined, st1, (open_events w ++ t)%list)
    end.
Proof.
  intros H.
  cbv [wrapSymbols bind gets dlopen modify emit ask ret DALI_FAIL throw
       opened_handle open_events after_open].
  rewrite H.
  change (negb (0 =? 0)) with false. cbv beta iota.
  destruct (N.eqb (dlopen_result w "libnvidia-ml.so") NULL) eqn:E1;
    cbv beta iota; cbn [nvmlhandle set_nvmlhandle]; rewrite ?E1;
    cbv beta iota.
  - destruct (N.eqb (dlopen_result w "libnvidia-ml.so.1") NULL) eqn:E2;
      cbv beta iota; cbn [nvmlhandle set_nvmlhandle]; rewrite ?E2;
      cbv beta iota.
    + reflexivity.
    + change (fun '(symbol, funcptr) => LOAD_SYM nvmlhandle symbol funcptr)
        with load_line.
      destruct (forM_ (load_order V) load_line w _) as [[[[]|m|] s1] t1];
        cbn [app]; rewrite ?app_nil_r; reflexivity.
  - change (fun '(symbol, funcptr) => LOAD_SYM nvmlhandle symbol funcptr)
      with load_line.
    destruct (forM_ (load_order V) load_line w _) as [[[[]|m|] s1] t1];
      cbn [app]; rewrite ?app_nil_r; reflexivity.
Qed.

Lemma after_open_nvmlhandle w st :
  nvmlhandle (after_open w st) = opened_handle w.
Proof.
  unfold after_open, opened_handle. cbv zeta.
  destruct (N.eqb (dlopen_result w "libnvidia-ml.so") NULL); [|reflexivity].
  destruct (N.eqb (dlopen_result w "libnvidia-ml.so.1") NULL); reflexivity.
Qed.

Lemma after_open_symbolsLoaded w st :
  symbolsLoaded (after_open w st) = symbolsLoaded st.
Proof.
  unfold after_open. cbv zeta.
  destruct (N.eqb (dlopen_result w "libnvidia-ml.so") NULL); [|reflexivity].
  destruct (N.eqb (dlopen_result w "libnvidia-ml.so.1") NULL); reflexivity.
Qed.

(** Opening the library writes to no function pointer. *)
Lemma after_open_get_slot g w st : get_slot g (after_open w st) = get_slot g st.
Proof.
  unfold after_open. cbv zeta.
  destruct (N.eqb (dlopen_result w "libnvidia-ml.so") NULL).
  - destruct (N.eqb (dlopen_result w "libnvidia-ml.so.1") NULL);
      rewrite ?get_slot_set_nvmlhandle, ?get_slot_set_dl_error;
      rewrite ?get_slot_set_nvmlhandle, ?get_slot_set_dl_error; reflexivity.
  - apply get_slot_set_nvmlhandle.
Qed.

Lemma load_order_NoDup V : NoDup (map snd (load_order V)).
Proof.
  unfold load_order. destruct (cuda11_build V); cbn;
    repeat (constructor; [cbn; intuition discriminate|]); constructor.
Qed.

(** The three ways through [wrapSymbols] when the flag is not yet set: no
    library, every line resolved, or a stop at the first missing symbol. *)
Lemma wrapSymbols_cases V w st :
  symbolsLoaded st = 0 ->
  let r := wrapSymbols V w st in
  let h := opened_handle w in
  (h = NULL /\
   r = (Throw "Failed to open libnvidia-ml.so[.1]", after_open w st,
        open_events w))
  \/
  (h <> NULL /\ outcome r = Ret DALISuccess /\
   symbolsLoaded (final r) = 1 /\ nvmlhandle (final r) = h /\
   slots_resolved w h (load_order V) st (final r) /\
   trace r = (open_events w ++ dlsym_events h (load_order V))%list)
  \/
  (h <> NULL /\
   exists l1 s f l2,
     load_order V = (l1 ++ (s, f) :: l2)%list /\ dlsym_result w h s = NULL /\
     outcome r = missing_symbol_outcome w h s /\
     symbolsLoaded (final r) = 0 /\ nvmlhandle (final r) = h /\
     slots_resolved w h l1 st (final r) /\
     trace r
     = (open_events w ++ dlsym_events h l1 ++ [EvDlsym h s; EvDlerror])%list).
Proof.
  intros H0 r h. subst r. rewrite (wrapSymbols_not_loaded _ _ _ H0). fold h.
  destruct (N.eqb_spec h NULL) as [E|E]; [left; auto|right].
  pose proof (resolve_pass w _ (load_order_NoDup V) (after_open w st)) as P.
  cbv zeta in P. rewrite after_open_nvmlhandle, after_open_symbolsLoaded in P.
  fold h in P.
  destruct (forM_ (load_order V) load_line w (after_open w st))
    as [[o st1] t] eqn:Er.
  unfold outcome, final, trace in *. cbn [fst snd] in *.
  destruct P as (HL & HH & [(-> & (Hin & Hout) & ->)
      |(l1 & s & f & l2 & Hl & Hn & -> & (Hin & Hout) & ->)]).
  - left. cbn [fst snd]. split; [exact E|]. split; [reflexivity|].
    split; [reflexivity|]. split; [exact HH|]. split; [|reflexivity].
    split.
    + intros s f Hsf. rewrite get_slot_set_symbolsLoaded. auto.
    + intros g Hg. rewrite get_slot_set_symbolsLoaded, Hout by assumption.
      apply after_open_get_slot.
  - right. split; [exact E|]. exists l1, s, f, l2.
    unfold missing_symbol_outcome.
    destruct (dlsym_message w h s); cbn [fst snd];
      (split; [exact Hl|]); (split; [exact Hn|]); (split; [reflexivity|]);
      (split; [congruence|]); (split; [exact HH|]); (split; [|reflexivity]);
      (split; [exact Hin|]);
      intros g Hg; rewrite Hout by assumption; apply after_open_get_slot.
Qed.

Lemma missing_symbol_outcome_not_Ret {A} w h s (a : A) :
  missing_symbol_outcome w h s <> Ret a.
Proof.
  unfold missing_symbol_outcome. destruct (dlsym_message w h s); discriminate.
Qed.

(** ** Sequences of calls *)

Lemma final_bind_ret {A B} (m : M A) (g : A -> B) w st :
  final (bind m (fun a => ret (g a)) w st) = final (m w st).
Proof.
  unfold bind, ret, final. destruct (m w st) as [[[a| |] s] t]; reflexivity.
Qed.

Lemma exec_final_loaded V c w st :
  symbolsLoaded st <> 0 -> final (exec V c w st) = st.
Proof.
  intros H. destruct c as [| |c]; cbn [exec]; rewrite final_bind_ret.
  - now rewrite wrapSymbols_loaded.
  - apply wrapHasCuda11NvmlFunctions_final.
  - apply wrap_final.
Qed.

(** [wrapSymbols] returns only with the flag set. *)
Lemma wrapSymbols_success_sets_flag V w st r :
  outcome (wrapSymbols V w st) = Ret r ->
  symbolsLoaded (final (wrapSymbols V w st)) <> 0.
Proof.
  intros Ho. destruct (Z.eq_dec (symbolsLoaded st) 0) as [H0|H0].
  - destruct (wrapSymbols_cases V w st H0)
      as [(_ & E)|[(_ & _ & E & _)|(_ & l1 & s & f & l2 & _ & _ & E & _)]].
    + rewrite E in Ho. discriminate.
    + rewrite E. discriminate.
    + rewrite E in Ho. now apply missing_symbol_outcome_not_Ret in Ho.
  - now rewrite wrapSymbols_loaded.
Qed.

(** C3. Once [symbolsLoaded] is set, no call into the translation unit
    writes a global (so no function pointer changes, over any sequence of
    calls), and [wrapSymbols] returns [DALISuccess] at once, without a
    [dlopen] or a [dlsym].  A call of [wrapSymbols] that returns
    [DALISuccess] sets the flag, so a second call right after it is of that
    kind: of two calls in sequence only the first makes a resolution pass. *)
Theorem loaded_flag_freezes_symbol_table V :
  (forall st, symbolsLoaded st <> 0 ->
     (forall w c, final (exec V c w st) = st) /\
     (forall cs, run V cs st = st) /\
     (forall w, wrapSymbols V w st = (Ret DALISuccess, st, []))) /\
  (forall w st, outcome (wrapSymbols V w st) = Ret DALISuccess ->
     let st' := final (wrapSymbols V w st) in
     symbolsLoaded st' <> 0 /\
     (symbolsLoaded st = 0 ->
      trace (wrapSymbols V w st)
      = (open_events w ++ dlsym_events (opened_handle w) (load_order V))%list)
     /\
     (forall w', wrapSymbols V w' st' = (Ret DALISuccess, st', []))).
Proof.
  split.
  - intros st H. split; [|split].
    + intros w c. now apply exec_final_loaded.
    + intros cs. induction cs as [|[w c] cs IH]; cbn [run]; [reflexivity|].
      now rewrite exec_final_loaded.
    + intros w. now apply wrapSymbols_loaded.
  - intros w st Ho st'.
    assert (Hs : symbolsLoaded st' <> 0)
      by (eapply wrapSymbols_success_sets_flag; eassumption).
    split; [exact Hs|]. split.
    + intros H0.
      destruct (wrapSymbols_cases V w st H0)
        as [(_ & E)|[(_ & _ & _ & _ & _ & E)
                    |(_ & l1 & s & f & l2 & _ & _ & E & _)]].
      * rewrite E in Ho. discriminate.
      * exact E.
      * rewrite E in Ho. now apply missing_symbol_outcome_not_Ret in Ho.
    + intros w'. now apply wrapSymbols_loaded.
Qed.

(** C3 after a load through the versioned name: a second [wrapSymbols],
    even with the library gone, and other calls change nothing. *)
Lemma loaded_flag_freezes_symbol_table_witness :
  let st := final (wrapSymbols 11000 stub_complete initial_state) in
  symbolsLoaded st <> 0 /\
  wrapSymbols 11000 stub_absent st = (Ret DALISuccess, st, []) /\
  run 11000 [(stub_failing, CallWrapper WInit);
             (stub_absent, CallWrapSymbols);
             (stub_complete, CallHasCuda11NvmlFunctions)] st = st.
Proof.
  assert (Ho : outcome (wrapSymbols 11000 stub_complete initial_state)
               = Ret DALISuccess) by reflexivity.
  destruct (proj2 (loaded_flag_freezes_symbol_table 11000)
              stub_complete initial_state Ho) as (Hs & _ & Hw).
  split; [exact Hs|]. split; [apply Hw|].
  apply (proj1 (loaded_flag_freezes_symbol_table 11000) _ Hs).
Defined.

(** ** Wrappers before a load *)

Lemma run_without_load V cs st :
  forallb (fun wc => not_a_load (snd wc)) cs = true -> run V cs st = st.
Proof.
  revert st. induction cs as [|[w c] cs IH]; intros st Hcs; [reflexivity|].
  cbn [run]. cbn [forallb snd] in Hcs. apply andb_true_iff in Hcs.
  destruct Hcs as [Hc Hcs]. rewrite <- (IH st Hcs) at 2. f_equal.
  destruct c as [| |c]; [discriminate| |]; cbn [exec];
    rewrite final_bind_ret.
  - apply wrapHasCuda11NvmlFunctions_final.
  - apply wrap_final.
Qed.

(** C1, counterexample. A process whose only load has failed (the library
    lacks [nvmlDeviceGetIndex]): no load has succeeded, yet
    [nvmlInternalInit] is set and [wrapNvmlInit] calls the native function
    and returns [DALISuccess], not [DALIError]. *)
Lemma wrapper_before_successful_load_calls_native :
  let w := stub_without_index in
  let r := wrapSymbols 11000 w initial_state in
  let st := final r in
  outcome r
  = Throw "dlsym failed on nvmlDeviceGetIndex - undefined symbol: nvmlDeviceGetIndex"
  /\
  symbolsLoaded st = 0 /\
  wrapNvmlInit w st = (Ret DALISuccess, st, [EvNative 101%N []]).
Proof. vm_compute. repeat split. Qed.

(** C1, amended. A wrapper whose function pointer is null returns
    [DALIError] and does nothing else: no native call, no warning, no
    global written.  So does every wrapper of a process that has not yet
    called [wrapSymbols], whatever other calls it has made. *)
Theorem wrapper_null_entry_returns_error V c w st :
  get_slot (slot_of c) st = NULL ->
  wrap c w st = (Ret DALIError, st, []) /\
  forall cs, forallb (fun wc => not_a_load (snd wc)) cs = true ->
    wrap c w (run V cs initial_state) = (Ret DALIError, initial_state, []).
Proof.
  intros H. split.
  - rewrite wrap_run. unfold shim_run. now rewrite H.
  - intros cs Hcs. rewrite (run_without_load V cs _ Hcs), wrap_run.
    destruct c; reflexivity.
Qed.

(** C1, amended, at a state left by a failed load: the brand pointer is
    null there. *)
Lemma wrapper_null_entry_returns_error_witness :
  let st := final (wrapSymbols 11000 stub_without_brand initial_state) in
  get_slot (slot_of (WDeviceGetBrand 7 8)) st = NULL /\
  wrap (WDeviceGetBrand 7 8) stub_without_brand st = (Ret DALIError, st, []).
Proof.
  split; [reflexivity|].
  apply (wrapper_null_entry_returns_error
           11000 (WDeviceGetBrand 7 8) stub_without_brand
           (final (wrapSymbols 11000 stub_without_brand initial_state))).
  reflexivity.
Defined.

(** ** A load that fails *)

(** C4, counterexample. A failed pass keeps what it resolved: without
    [nvmlShutdown] in the
    library, [wrapSymbols] throws at the second line, and
    [nvmlInternalInit], null before the call, holds the address that this
    pass found for [nvmlInit]. *)
Lemma failed_load_retains_resolved_pointers :
  let r := wrapSymbols 11000 stub_without_shutdown initial_state in
  outcome r
  = Throw "dlsym failed on nvmlShutdown - undefined symbol: nvmlShutdown" /\
  symbolsLoaded (final r) = 0 /\
  nvmlInternalInit initial_state = NULL /\
  nvmlInternalInit (final r) = 101%N /\
  dlsym_result stub_without_shutdown (nvmlhandle (final r)) "nvmlInit" = 101%N.
Proof. vm_compute. repeat split. Qed.

(** C4, amended. A failed [wrapSymbols] leaves [symbolsLoaded] at 0.  If no
    library was found, every function pointer is as before the call.  If a
    symbol was not found, the pointers of the lines before it hold what this
    pass resolved (not null), and every other pointer, those of the failing
    line and of the lines after it included, is as before the call. *)
Theorem failed_load_keeps_resolved_prefix V w st msg :
  outcome (wrapSymbols V w st) = Throw msg ->
  let r := wrapSymbols V w st in
  let h := opened_handle w in
  symbolsLoaded (final r) = 0 /\
  ((h = NULL /\ forall g, get_slot g (final r) = get_slot g st)
   \/
   (h <> NULL /\
    exists l1 s f l2,
      load_order V = (l1 ++ (s, f) :: l2)%list /\
      dlsym_result w h s = NULL /\
      slots_resolved w h l1 st (final r))).
Proof.
  intros Ho r h. subst r.
  destruct (Z.eq_dec (symbolsLoaded st) 0) as [H0|H0].
  - destruct (wrapSymbols_cases V w st H0)
      as [(Hh & E)|[(_ & E & _)
                   |(Hh & l1 & s & f & l2 & Hl & Hn & _ & Hs & _ & Hr & _)]].
    + rewrite E. cbn [final fst snd]. rewrite after_open_symbolsLoaded.
      split; [exact H0|]. left. split; [exact Hh|].
      intros g. apply after_open_get_slot.
    + rewrite E in Ho. discriminate.
    + split; [exact Hs|]. right. split; [exact Hh|].
      exists l1, s, f, l2. auto.
  - rewrite wrapSymbols_loaded in Ho by assumption. discriminate.
Qed.

(** C4, amended, at the load that stops at [nvmlShutdown]. *)
Lemma failed_load_keeps_resolved_prefix_witness :
  let r := wrapSymbols 11000 stub_without_shutdown initial_state in
  symbolsLoaded (final r) = 0 /\
  ((opened_handle stub_without_shutdown = NULL /\
    forall g, get_slot g (final r) = get_slot g initial_state)
   \/
   (opened_handle stub_without_shutdown <> NULL /\
    exists l1 s f l2,
      load_order 11000 = (l1 ++ (s, f) :: l2)%list /\
      dlsym_result stub_without_shutdown
                   (opened_handle stub_without_shutdown) s = NULL /\
      slots_resolved stub_without_shutdown
                     (opened_handle stub_without_shutdown) l1
                     initial_state (final r))).
Proof.
  apply (failed_load_keeps_resolved_prefix 11000 stub_without_shutdown
           initial_state
           "dlsym failed on nvmlShutdown - undefined symbol: nvmlShutdown").
  reflexivity.
Defined.

(** ** Opening the library *)

Lemma dlsym_events_no_dlopen h l name : ~ In (EvDlopen name) (dlsym_events h l).
Proof.
  unfold dlsym_events. rewrite in_map_iff. intros (e & He & _). discriminate.
Qed.

(** C9, counterexample. With no library under either name, [wrapSymbols]
    throws a fixed text:
    the loader's message for the last failed [dlopen] is still in the
    loader's buffer, unread, and is no part of the text thrown. *)
Lemma library_not_found_message_omits_loader_error :
  let r := wrapSymbols 11000 stub_absent initial_state in
  outcome r = Throw "Failed to open libnvidia-ml.so[.1]" /\
  trace r = [EvDlopen "libnvidia-ml.so"; EvDlopen "libnvidia-ml.so.1"] /\
  dl_error (final r)
  = Some "libnvidia-ml.so.1: cannot open shared object file" /\
  contains "libnvidia-ml.so.1: cannot open shared object file"
           "Failed to open libnvidia-ml.so[.1]" = false.
Proof. vm_compute. repeat split. Qed.

(** C9, amended. [wrapSymbols] (flag not set) calls [dlopen] on
    "libnvidia-ml.so" and, only if that returns null, on
    "libnvidia-ml.so.1"; it makes no other [dlopen], and goes on with the
    handle it obtained.  If both return null it throws the fixed text
    "Failed to open libnvidia-ml.so[.1]", after these two calls and no
    other, with every function pointer as before. *)
Theorem library_opened_under_primary_then_fallback_name V w st :
  symbolsLoaded st = 0 ->
  let r := wrapSymbols V w st in
  let h1 := dlopen_result w "libnvidia-ml.so" in
  let h2 := dlopen_result w "libnvidia-ml.so.1" in
  (exists t,
     trace r
     = ((if N.eqb h1 NULL
         then [EvDlopen "libnvidia-ml.so"; EvDlopen "libnvidia-ml.so.1"]
         else [EvDlopen "libnvidia-ml.so"]) ++ t)%list /\
     forall name, ~ In (EvDlopen name) t) /\
  nvmlhandle (final r) = (if N.eqb h1 NULL then h2 else h1) /\
  (h1 = NULL -> h2 = NULL ->
   outcome r = Throw "Failed to open libnvidia-ml.so[.1]" /\
   trace r = [EvDlopen "libnvidia-ml.so"; EvDlopen "libnvidia-ml.so.1"] /\
   forall g, get_slot g (final r) = get_slot g st).
Proof.
  intros H0 r h1 h2. subst r.
  change (if N.eqb h1 NULL
          then [EvDlopen "libnvidia-ml.so"; EvDlopen "libnvidia-ml.so.1"]
          else [EvDlopen "libnvidia-ml.so"]) with (open_events w).
  change (if N.eqb h1 NULL then h2 else h1) with (opened_handle w).
  destruct (wrapSymbols_cases V w st H0)
    as [(Hh & E)|[(Hh & _ & _ & HH & _ & Ht)
                 |(Hh & l1 & s & f & l2 & _ & _ & _ & _ & HH & _ & Ht)]].
  - rewrite E. cbn [outcome final trace fst snd]. split; [|split].
    + exists []. split; [now rewrite app_nil_r|]. intros name [].
    + apply after_open_nvmlhandle.
    + intros E1 E2. split; [reflexivity|]. split.
      * unfold open_events. fold h1. rewrite E1. reflexivity.
      * intros g. apply after_open_get_slot.
  - split; [|split].
    + eexists. split; [exact Ht|]. intros name. apply dlsym_events_no_dlopen.
    + exact HH.
    + intros E1 E2. exfalso. apply Hh. unfold opened_handle. fold h1 h2.
      rewrite E1. exact E2.
  - split; [|split].
    + eexists. split; [exact Ht|]. intros name Hin.
      apply in_app_or in Hin. destruct Hin as [Hin|[Hin|[Hin|[]]]];
        try discriminate. revert Hin. apply dlsym_events_no_dlopen.
    + exact HH.
    + intros E1 E2. exfalso. apply Hh. unfold opened_handle. fold h1 h2.
      rewrite E1. exact E2.
Qed.

(** C9, amended, with no library under either name. *)
Lemma library_opened_under_primary_then_fallback_name_witness :
  let r := wrapSymbols 11000 stub_absent initial_state in
  outcome r = Throw "Failed to open libnvidia-ml.so[.1]" /\
  trace r = [EvDlopen "libnvidia-ml.so"; EvDlopen "libnvidia-ml.so.1"] /\
  forall g, get_slot g (final r) = get_slot g initial_state.
Proof.
  apply (library_opened_under_primary_then_fallback_name
           11000 stub_absent initial_state); reflexivity.
Defined.

(** ** The version gate *)

Lemma int32_in_int z : in_int z -> int32 z = z.
Proof.
  unfold in_int, int32. intros H.
  rewrite Z.mod_small by lia. lia.
Qed.

(** Without overflow the threshold is the number the source writes. *)
Lemma driver_threshold_exact cuda_M cuda_m :
  in_int cuda_M -> in_int cuda_m ->
  in_int (1000 * cuda_M) -> in_int (10 * cuda_m) ->
  in_int (1000 * cuda_M + 10 * cuda_m) ->
  driver_threshold cuda_M cuda_m = 1000 * cuda_M + 10 * cuda_m.
Proof.
  intros H1 H2 H3 H4 H5. unfold driver_threshold.
  now rewrite (int32_in_int _ H1), (int32_in_int _ H2), (int32_in_int _ H3),
    (int32_in_int _ H4), (int32_in_int _ H5).
Qed.

(** With overflow it is not: a major version of 2147484 gives a negative
    threshold, which every driver version from 0 on meets. *)
Lemma driver_threshold_wraps :
  driver_threshold 2147484 0 = -2147483296.
Proof. reflexivity. Qed.

(** What [LOAD_SYM_MIN_DRIVER] would do: with a driver older than asked, the
    slot is set to null, [dlsym] is not called, and the line returns. *)
Lemma LOAD_SYM_MIN_DRIVER_insufficient w st symbol f cuda_M cuda_m :
  fst (cuda_driver_version w) = 0 ->
  int32 (snd (cuda_driver_version w)) < driver_threshold cuda_M cuda_m ->
  LOAD_SYM_MIN_DRIVER nvmlhandle symbol f cuda_M cuda_m w st
  = (Ret tt, set_slot f NULL st, [EvCudaDriverGetVersion]).
Proof.
  intros Hc Hv.
  cbv [LOAD_SYM_MIN_DRIVER is_driver_sufficient CUDA_CALL bind emit ask ret
       modify].
  rewrite Hc. change (0 =? 0) with true. cbv beta iota.
  fold (driver_threshold cuda_M cuda_m).
  destruct (Z.leb_spec (driver_threshold cuda_M cuda_m)
                       (int32 (snd (cuda_driver_version w))));
    [lia|reflexivity].
Qed.

(** With a driver that is recent enough it is [LOAD_SYM] after the query. *)
Lemma LOAD_SYM_MIN_DRIVER_sufficient w st symbol f cuda_M cuda_m :
  fst (cuda_driver_version w) = 0 ->
  driver_threshold cuda_M cuda_m <= int32 (snd (cuda_driver_version w)) ->
  LOAD_SYM_MIN_DRIVER nvmlhandle symbol f cuda_M cuda_m w st
  = match LOAD_SYM nvmlhandle symbol f w st with
    | (o, st', t) => (o, st', EvCudaDriverGetVersion :: t)
    end.
Proof.
  intros Hc Hv.
  cbv [LOAD_SYM_MIN_DRIVER is_driver_sufficient CUDA_CALL bind emit ask ret
       modify LOAD_SYM gets].
  rewrite Hc. change (0 =? 0) with true. cbv beta iota.
  fold (driver_threshold cuda_M cuda_m).
  destruct (Z.leb_spec (driver_threshold cuda_M cuda_m)
                       (int32 (snd (cuda_driver_version w)))); [|lia].
  cbn [negb]. cbv beta iota.
  destruct (dlsym (nvmlhandle st) symbol w st) as [[[p| |] s1] t1];
    reflexivity.
Qed.

Lemma dlsym_events_no_version_query h l :
  ~ In EvCudaDriverGetVersion (dlsym_events h l).
Proof.
  unfold dlsym_events. rewrite in_map_iff. intros (e & He & _). discriminate.
Qed.

(** In no build and in no environment does [wrapSymbols] ask for the driver
    version. *)
Lemma wrapSymbols_never_queries_driver V w st :
  ~ In EvCudaDriverGetVersion (trace (wrapSymbols V w st)).
Proof.
  destruct (Z.eq_dec (symbolsLoaded st) 0) as [H0|H0];
    [|rewrite wrapSymbols_loaded by assumption; intros []].
  assert (Ho : ~ In EvCudaDriverGetVersion (open_events w)).
  { unfold open_events.
    destruct (N.eqb (dlopen_result w "libnvidia-ml.so") NULL); cbn;
      intuition discriminate. }
  destruct (wrapSymbols_cases V w st H0)
    as [(_ & E)|[(_ & _ & _ & _ & _ & E)
                |(_ & l1 & s & f & l2 & _ & _ & _ & _ & _ & _ & E)]];
    rewrite E; cbn [trace snd]; [exact Ho| |]; intros Hin.
  - apply in_app_or in Hin. destruct Hin as [Hin|Hin]; [now apply Ho|].
    revert Hin. apply dlsym_events_no_version_query.
  - apply in_app_or in Hin. destruct Hin as [Hin|Hin]; [now apply Ho|].
    apply in_app_or in Hin. destruct Hin as [Hin|[Hin|[Hin|[]]]];
      try discriminate.
    revert Hin. apply dlsym_events_no_version_query.
Qed.

(** C5, on the code. A CUDA 11 build, a CUDA 10.2 driver, a library without
    [nvmlDeviceGetBrand]: [wrapSymbols] never asks for the driver version,
    calls [dlsym] for the symbol and throws, where [LOAD_SYM_MIN_DRIVER]
    on the same line would have set the pointer to null and gone on. *)
Theorem cuda11_symbols_resolved_without_version_gate :
  let w := stub_without_brand in
  let r := wrapSymbols 11000 w initial_state in
  cuda_driver_version w = (0, 10020) /\
  outcome r
  = Throw "dlsym failed on nvmlDeviceGetBrand - undefined symbol: nvmlDeviceGetBrand"
  /\
  trace r
  = (EvDlopen "libnvidia-ml.so"
       :: dlsym_events 4096%N (firstn 11 (load_order 11000))
       ++ [EvDlsym 4096%N "nvmlDeviceGetBrand"; EvDlerror])%list /\
  LOAD_SYM_MIN_DRIVER nvmlhandle "nvmlDeviceGetBrand" pDeviceGetBrand 11 0
                      w (final r)
  = (Ret tt, set_slot pDeviceGetBrand NULL (final r),
     [EvCudaDriverGetVersion]).
Proof. vm_compute. repeat split. Qed.

(** C6, on the code. The scenario in a CUDA 11 build (the only one that has
    [wrapNvmlDeviceGetBrand]): [wrapSymbols] does not succeed, it throws on
    the missing symbol; after that [wrapHasCuda11NvmlFunctions] is false,
    [wrapNvmlInit] returns [DALISuccess] and [wrapNvmlDeviceGetBrand]
    returns [DALIError] without a native call. *)
Theorem stub_without_brand_scenario :
  let w := stub_without_brand in
  let r := wrapSymbols 11000 w initial_state in
  let st := final r in
  outcome r
  = Throw "dlsym failed on nvmlDeviceGetBrand - undefined symbol: nvmlDeviceGetBrand"
  /\
  symbolsLoaded st = 0 /\
  wrapHasCuda11NvmlFunctions 11000 w st = (Ret false, st, []) /\
  wrapNvmlInit w st = (Ret DALISuccess, st, [EvNative 101%N []]) /\
  wrapNvmlDeviceGetBrand 7 8 w st = (Ret DALIError, st, []).
Proof. vm_compute. repeat split. Qed.

(** The same library in a build older than CUDA 11, which has neither the
    five [LOAD_SYM] lines nor [wrapNvmlDeviceGetBrand]: the load succeeds. *)
Lemma stub_without_brand_older_build :
  let w := stub_without_brand in
  let r := wrapSymbols 10020 w initial_state in
  let st := final r in
  outcome r = Ret DALISuccess /\
  symbolsLoaded st = 1 /\
  wrapHasCuda11NvmlFunctions 10020 w st = (Ret false, st, []) /\
  wrapNvmlInit w st = (Ret DALISuccess, st, [EvNative 101%N []]).
Proof. vm_compute. repeat split. Qed.

(** ** The capability query *)

(** In a duplicate-free list cut in two, an element of the first part has
    everything that comes before it in the first part too. *)
Lemma earlier_in_prefix {A} (a b : A) (p q l1 l2 : list A) :
  NoDup (l1 ++ l2) -> (l1 ++ l2 = p ++ a :: q)%list ->
  In b q -> In b l1 -> In a l1.
Proof.
  revert l1. induction p as [|c p IH]; intros l1 ND E Hq Hb.
  - destruct l1 as [|x l1]; [destruct Hb|].
    cbn in E. injection E as -> _. now left.
  - destruct l1 as [|x l1]; [destruct Hb|].
    cbn in E. injection E as -> E. inversion ND as [|? ? Hc ND']; subst.
    destruct Hb as [<-|Hb].
    + exfalso. apply Hc. rewrite E. apply in_or_app. right. now right.
    + right. now apply IH.
Qed.

Lemma cuda11_slots_not_loaded V g :
  cuda11_build V = false ->
  In g (map snd cuda11_symbols) -> ~ In g (map snd (load_order V)).
Proof.
  intros Hb Hg. unfold load_order. rewrite Hb. cbn in *.
  intuition (subst; discriminate).
Qed.

Lemma in_prefix_in_load_order V l1 e l2 g :
  load_order V = (l1 ++ e :: l2)%list ->
  In g (map snd l1) -> In g (map snd (load_order V)).
Proof.
  intros -> H. rewrite map_app. apply in_or_app. now left.
Qed.

Lemma cuda11_invariant_wrapSymbols V w st :
  cuda11_invariant V st -> cuda11_invariant V (final (wrapSymbols V w st)).
Proof.
  intros [I1 I2]. destruct (Z.eq_dec (symbolsLoaded st) 0) as [H0|H0];
    [|now rewrite wrapSymbols_loaded].
  destruct (wrapSymbols_cases V w st H0)
    as [(_ & E)|[(_ & _ & _ & _ & (Hin & Hout) & _)
                |(_ & l1 & s & f & l2 & Hl & _ & _ & _ & _
                   & (Hin & Hout) & _)]].
  - rewrite E. cbn [final fst snd]. split.
    + rewrite !after_open_get_slot. exact I1.
    + intros Hb g Hg. rewrite after_open_get_slot. now apply I2.
  - split.
    + destruct (cuda11_build V) eqn:Hb.
      * intros _.
        destruct (Hin "nvmlDeviceGetCpuAffinityWithinScope"
                      pDeviceGetCpuAffinityWithinScope) as [-> Hn];
          [|exact Hn].
        unfold load_order. rewrite Hb. apply in_or_app. right. now left.
      * rewrite !Hout; [exact I1| |];
          apply (cuda11_slots_not_loaded V _ Hb); cbn; tauto.
    + intros Hb g Hg. rewrite Hout; [now apply I2|].
      now apply cuda11_slots_not_loaded.
  - split.
    + intros HB.
      destruct (in_dec Slot_eq_dec pDeviceGetCpuAffinityWithinScope
                       (map snd l1)) as [Ha|Ha].
      * apply in_map_iff in Ha. destruct Ha as ([s' f'] & Ef & Ha).
        cbn in Ef. subst f'. destruct (Hin _ _ Ha) as [-> Hn]. exact Hn.
      * rewrite (Hout _ Ha).
        destruct (in_dec Slot_eq_dec pDeviceGetBrand (map snd l1)) as [Hb|Hb].
        -- exfalso. apply Ha.
           destruct (cuda11_build V) eqn:Hc.
           ++ apply (earlier_in_prefix _ pDeviceGetBrand
                       (map snd required_symbols)
                       [pDeviceGetBrand; pDeviceGetCount_v2;
                        pDeviceGetHandleByIndex_v2;
                        pDeviceGetCudaComputeCapability]
                       _ (map snd ((s, f) :: l2))).
              ** rewrite <- map_app, <- Hl. apply load_order_NoDup.
              ** rewrite <- map_app, <- Hl. unfold load_order. rewrite Hc.
                 reflexivity.
              ** now left.
              ** exact Hb.
           ++ exfalso.
              apply (cuda11_slots_not_loaded V pDeviceGetBrand Hc);
                [cbn; tauto|].
              eapply in_prefix_in_load_order; eassumption.
        -- rewrite (Hout _ Hb) in HB. now apply I1.
    + intros Hb g Hg. rewrite Hout; [now apply I2|].
      intros Hg1. apply (cuda11_slots_not_loaded V g Hb Hg).
      eapply in_prefix_in_load_order; eassumption.
Qed.

Lemma cuda11_invariant_reachable V st :
  reachable V st -> cuda11_invariant V st.
Proof.
  induction 1 as [|st w c _ IH _].
  - split; [intros H; now contradiction H|]. intros _ g Hg.
    destruct g; reflexivity.
  - destruct c as [| |c]; cbn [exec]; rewrite final_bind_ret.
    + now apply cuda11_invariant_wrapSymbols.
    + now rewrite wrapHasCuda11NvmlFunctions_final.
    + now rewrite wrap_final.
Qed.

(** C7. In every state of a process, [wrapHasCuda11NvmlFunctions] returns
    true exactly when each of the five function pointers of the CUDA 11
    group is non-null; it reads four of them, and the fifth,
    [nvmlInternalDeviceGetCpuAffinityWithinScope], is set whenever
    [nvmlInternalDeviceGetBrand] is.  It writes nothing and calls nothing. *)
Theorem has_cuda11_functions_iff_group_resolved V w st :
  reachable V st ->
  exists b,
    wrapHasCuda11NvmlFunctions V w st = (Ret b, st, []) /\
    (b = true <->
     forall g, In g (map snd cuda11_symbols) -> get_slot g st <> NULL).
Proof.
  intros Hr. destruct (cuda11_invariant_reachable V st Hr) as [I1 I2].
  unfold wrapHasCuda11NvmlFunctions. destruct (cuda11_build V) eqn:Hb.
  - eexists. split; [reflexivity|]. unfold non_null.
    rewrite !andb_true_iff, !negb_true_iff, !N.eqb_neq. split.
    + intros (((Hc & Hh) & Hcc) & HB) g Hg. cbn in Hg.
      destruct Hg as [<-|[<-|[<-|[<-|[<-|[]]]]]]; auto.
    + intros H.
      repeat split;
        [apply (H pDeviceGetCount_v2) | apply (H pDeviceGetHandleByIndex_v2)
         | apply (H pDeviceGetCudaComputeCapability)
         | apply (H pDeviceGetBrand)]; cbn; tauto.
  - exists false. split; [reflexivity|]. split; [discriminate|].
    intros H. exfalso. apply (H pDeviceGetBrand); [cbn; tauto|].
    apply (I2 eq_refl). cbn; tauto.
Qed.

(** C7 at the state left by a load that stopped at [nvmlDeviceGetBrand]. *)
Lemma has_cuda11_functions_iff_group_resolved_witness :
  let st := final (exec 11000 CallWrapSymbols stub_without_brand
                        initial_state) in
  reachable 11000 st /\
  exists b,
    wrapHasCuda11NvmlFunctions 11000 stub_complete st = (Ret b, st, []) /\
    (b = true <->
     forall g, In g (map snd cuda11_symbols) -> get_slot g st <> NULL).
Proof.
  assert (Hr : reachable 11000
                 (final (exec 11000 CallWrapSymbols stub_without_brand
                              initial_state))).
  { apply reachable_call; [apply reachable_start|]. vm_compute. discriminate. }
  split; [exact Hr|].
  apply (has_cuda11_functions_iff_group_resolved 11000 stub_complete _ Hr).
Defined.

(** ** After a successful load *)

Lemma loaded_invariant_wrapSymbols V w st :
  loaded_invariant V st -> loaded_invariant V (final (wrapSymbols V w st)).
Proof.
  intros I. destruct (Z.eq_dec (symbolsLoaded st) 0) as [H0|H0];
    [|now rewrite wrapSymbols_loaded].
  destruct (wrapSymbols_cases V w st H0)
    as [(_ & E)|[(_ & _ & _ & _ & (Hin & _) & _)
                |(_ & l1 & s & f & l2 & _ & _ & _ & Hs & _)]].
  - rewrite E. cbn [final fst snd]. intros Hl. exfalso. apply Hl.
    now rewrite after_open_symbolsLoaded.
  - intros _ s f Hsf. destruct (Hin s f Hsf) as [-> Hn]. exact Hn.
  - intros Hl. contradiction.
Qed.

Lemma loaded_invariant_reachable V st :
  reachable V st -> loaded_invariant V st.
Proof.
  induction 1 as [|st w c _ IH _].
  - intros H. now contradiction H.
  - destruct c as [| |c]; cbn [exec]; rewrite final_bind_ret.
    + now apply loaded_invariant_wrapSymbols.
    + now rewrite wrapHasCuda11NvmlFunctions_final.
    + now rewrite wrap_final.
Qed.

Lemma ErrorString_in_load_order V :
  In ("nvmlErrorString", pErrorString) (load_order V).
Proof. unfold load_order. apply in_or_app. left. cbn. tauto. Qed.

(** C8, counterexample. After a load that stopped at [nvmlShutdown],
    [nvmlInternalInit] is set and [nvmlInternalErrorString] is null; when
    the native [nvmlInit] then fails, [wrapNvmlInit] calls through the null
    pointer: no warning is produced and the behaviour is undefined. *)
Theorem failure_path_calls_null_ErrorString :
  let w := stub_without_shutdown in
  let st := final (wrapSymbols 11000 w initial_state) in
  nvmlInternalInit st = 101%N /\
  nvmlInternalErrorString st = NULL /\
  native_status w 101%N [] = 3 /\
  wrapNvmlInit w st = (Undefined, st, [EvNative 101%N []]).
Proof. vm_compute. repeat split. Qed.

(** C8, amended. [FUNC_BODY] has no fallback text: its failure path always
    calls through [nvmlInternalErrorString].  In a process whose load has
    succeeded that pointer is not null, so no wrapper has undefined
    behaviour, and a wrapper whose native call fails produces its warning
    with the text obtained through that pointer. *)
Theorem failure_path_safe_after_successful_load V st c w :
  reachable V st ->
  symbolsLoaded st <> 0 ->
  let f := get_slot (slot_of c) st in
  let es := nvmlInternalErrorString st in
  let r := native_status w f (args_of c) in
  es <> NULL /\
  outcome (wrap c w st) <> Undefined /\
  (f <> NULL -> r <> NVML_SUCCESS ->
   wrap c w st
   = (Ret DALIError, st,
      [EvNative f (args_of c); EvNativeString es r;
       EvWarn (stringify (slot_of c) ++ "(...) failed: "
                 ++ native_string w es r)])).
Proof.
  intros Hr Hl f es r.
  assert (Hes : es <> NULL).
  { apply (loaded_invariant_reachable V st Hr Hl
             "nvmlErrorString" pErrorString).
    apply ErrorString_in_load_order. }
  split; [exact Hes|].
  rewrite wrap_run. unfold shim_run. fold f es r.
  destruct (N.eqb_spec es NULL) as [|_]; [contradiction|].
  destruct (N.eqb_spec f NULL) as [Ef|Ef].
  - split; [discriminate|]. intros Hf. contradiction.
  - destruct (Z.eqb_spec r NVML_SUCCESS) as [Er|Er].
    + split; [discriminate|]. intros _ Hn. contradiction.
    + split; [discriminate|]. reflexivity.
Qed.

(** C8, amended, after a load from a library whose native calls all fail. *)
Lemma failure_path_safe_after_successful_load_witness :
  let st := final (exec 11000 CallWrapSymbols stub_failing initial_state) in
  reachable 11000 st /\ symbolsLoaded st <> 0 /\
  nvmlInternalErrorString st <> NULL /\
  outcome (wrap WInit stub_failing st) <> Undefined.
Proof.
  assert (Hr : reachable 11000
                 (final (exec 11000 CallWrapSymbols stub_failing
                              initial_state))).
  { apply reachable_call; [apply reachable_start|]. vm_compute. discriminate. }
  assert (Hl : symbolsLoaded
                 (final (exec 11000 CallWrapSymbols stub_failing
                              initial_state)) <> 0)
    by (vm_compute; discriminate).
  split; [exact Hr|]. split; [exact Hl|].
  destruct (failure_path_safe_after_successful_load
              11000 _ WInit stub_failing Hr Hl) as (H1 & H2 & _).
  split; assumption.
Defined.

(** * Further properties of the loader and the shim *)

(** ** When a load succeeds *)

Lemma library_complete_iff V w :
  library_complete V w = true <->
  opened_handle w <> NULL /\
  forall s f, In (s, f) (load_order V) ->
              dlsym_result w (opened_handle w) s <> NULL.
Proof.
  unfold library_complete, non_null.
  rewrite andb_true_iff, negb_true_iff, N.eqb_neq, forallb_forall.
  split; intros [Hh Hl]; (split; [exact Hh|]).
  - intros s f Hsf. specialize (Hl _ Hsf). cbn [fst] in Hl.
    now rewrite negb_true_iff, N.eqb_neq in Hl.
  - intros [s f] Hsf. cbn [fst]. rewrite negb_true_iff, N.eqb_neq. eauto.
Qed.

(** With the flag clear, [wrapSymbols] returns exactly in the complete
    environments, and then it has made one full pass. *)
Lemma wrapSymbols_complete V w st :
  symbolsLoaded st = 0 ->
  let r := wrapSymbols V w st in
  let h := opened_handle w in
  (outcome r = Ret DALISuccess <-> library_complete V w = true) /\
  (library_complete V w = true ->
   symbolsLoaded (final r) = 1 /\ nvmlhandle (final r) = h /\
   slots_resolved w h (load_order V) st (final r) /\
   trace r = (open_events w ++ dlsym_events h (load_order V))%list).
Proof.
  intros H0 r h. subst r. rewrite library_complete_iff. fold h.
  destruct (wrapSymbols_cases V w st H0)
    as [(Hh & E)|[(Hh & Ho & Hs & HH & Hr & Ht)
                 |(Hh & l1 & s & f & l2 & Hl & Hn & Ho & _)]].
  - rewrite E. cbn [outcome fst]. split.
    + split; [discriminate|]. intros [Hc _]. contradiction.
    + intros [Hc _]. contradiction.
  - split.
    + split; [|intros _; exact Ho]. intros _. split; [exact Hh|].
      intros s f Hsf. now destruct (proj1 Hr s f Hsf).
    + intros _. auto.
  - assert (Hno : ~ (h <> NULL /\
                     forall s0 f0, In (s0, f0) (load_order V) ->
                                   dlsym_result w h s0 <> NULL)).
    { intros [_ Hall]. apply (Hall s f); [|exact Hn].
      rewrite Hl. apply in_or_app. right. now left. }
    split.
    + rewrite Ho. split; [|intros Hc; contradiction].
      intros H. now apply missing_symbol_outcome_not_Ret in H.
    + intros Hc. contradiction.
Qed.

(** A load (flag clear) returns [DALISuccess] exactly when the library
    opens under one of the two names and exports every symbol of the load
    order of the build; it then sets the flag to 1, keeps the handle, leaves
    in every pointer of the load order the address [dlsym] gave, and has
    called [dlsym] once per symbol, in source order, and [dlerror] never. *)
Theorem load_succeeds_iff_library_complete V w st :
  symbolsLoaded st = 0 ->
  let r := wrapSymbols V w st in
  let h := opened_handle w in
  (outcome r = Ret DALISuccess <-> library_complete V w = true) /\
  (outcome r = Ret DALISuccess ->
   symbolsLoaded (final r) = 1 /\ nvmlhandle (final r) = h /\
   slots_resolved w h (load_order V) st (final r) /\
   trace r = (open_events w ++ dlsym_events h (load_order V))%list).
Proof.
  intros H0 r h. destruct (wrapSymbols_complete V w st H0) as [Hiff Hc].
  split; [exact Hiff|]. intros Ho. apply Hc. now apply Hiff.
Qed.

(** At the library found under the versioned name only. *)
Lemma load_succeeds_iff_library_complete_witness :
  let r := wrapSymbols 11000 stub_complete initial_state in
  outcome r = Ret DALISuccess /\
  symbolsLoaded (final r) = 1 /\
  nvmlhandle (final r) = opened_handle stub_complete /\
  slots_resolved stub_complete (opened_handle stub_complete)
                 (load_order 11000) initial_state (final r) /\
  trace r = (open_events stub_complete
               ++ dlsym_events (opened_handle stub_complete)
                               (load_order 11000))%list.
Proof.
  assert (H0 : symbolsLoaded initial_state = 0) by reflexivity.
  split; [reflexivity|].
  apply (load_succeeds_iff_library_complete 11000 stub_complete
           initial_state H0).
  reflexivity.
Defined.

(** ** When a symbol is missing *)

(** A list has one first element that fails a test. *)
Lemma first_failing_unique {A} (P : A -> Prop) (l1 l1' : list A) x x' l2 l2' :
  (l1 ++ x :: l2 = l1' ++ x' :: l2')%list ->
  (forall a, In a l1 -> P a) -> ~ P x ->
  (forall a, In a l1' -> P a) -> ~ P x' ->
  l1 = l1' /\ x = x' /\ l2 = l2'.
Proof.
  revert l1'. induction l1 as [|a l1 IH]; intros [|a' l1'] E H1 Hx H1' Hx'.
  - cbn in E. injection E as -> ->. auto.
  - cbn in E. injection E as -> _. exfalso. apply Hx, H1'. now left.
  - cbn in E. injection E as -> _. exfalso. apply Hx', H1. now left.
  - cbn in E. injection E as -> E.
    destruct (IH l1' E) as (-> & -> & ->); auto.
    + intros b Hb. apply H1. now right.
    + intros b Hb. apply H1'. now right.
Qed.

(** When the library opens and [dlsym] returns null for a symbol, the load
    stops at the first such symbol of the load order: [dlsym] has been
    called for the symbols up to that one and for no later one, [dlerror]
    once, and the flag stays clear.  If the loader recorded an error for it,
    the text thrown is "dlsym failed on <symbol> - <loader text>"; if it
    recorded none (the symbol exists with a null value), [dlerror] returns
    the null string, the message cannot be built and the behaviour is
    undefined. *)
Theorem load_stops_at_first_missing_symbol V w st l1 s f l2 :
  symbolsLoaded st = 0 ->
  opened_handle w <> NULL ->
  load_order V = (l1 ++ (s, f) :: l2)%list ->
  (forall s' f', In (s', f') l1 ->
                 dlsym_result w (opened_handle w) s' <> NULL) ->
  dlsym_result w (opened_handle w) s = NULL ->
  let r := wrapSymbols V w st in
  let h := opened_handle w in
  (forall err, dlsym_message w h s = Some err ->
     let msg := "dlsym failed on " ++ s ++ " - " ++ err in
     outcome r = Throw msg /\
     contains s msg = true /\ contains err msg = true) /\
  (dlsym_message w h s = None -> outcome r = Undefined) /\
  trace r
  = (open_events w ++ dlsym_events h l1 ++ [EvDlsym h s; EvDlerror])%list /\
  symbolsLoaded (final r) = 0.
Proof.
  intros H0 Hh Hl Hfound Hmiss r h. subst r.
  destruct (wrapSymbols_cases V w st H0)
    as [(Hh' & _)|[(_ & _ & _ & _ & Hr & _)
                  |(_ & l1' & s' & f' & l2' & Hl' & Hn & Ho & Hs & _
                      & Hr & Ht)]].
  - contradiction.
  - exfalso. apply (proj1 Hr s f); [|exact Hmiss].
    rewrite Hl. apply in_or_app. right. now left.
  - destruct (first_failing_unique
                (fun e => dlsym_result w (opened_handle w) (fst e) <> NULL)
                l1 l1' (s, f) (s', f') l2 l2') as (<- & E & _).
    + now rewrite <- Hl.
    + intros [a b] Hab. cbn [fst]. eauto.
    + cbn [fst]. intros H. now apply H.
    + intros [a b] Hab. cbn [fst]. now destruct (proj1 Hr a b Hab).
    + cbn [fst]. intros H. now apply H.
    + injection E as <- <-. fold h in Ho, Ht.
      unfold missing_symbol_outcome in Ho.
      split; [|split; [|split; [exact Ht|exact Hs]]].
      * intros err He msg. rewrite He in Ho. split; [exact Ho|]. split.
        -- subst msg. apply contains_app.
        -- subst msg. apply contains_skip, contains_skip, contains_suffix.
      * intros He. now rewrite He in Ho.
Qed.

(** At the library without [nvmlDeviceGetBrand]: eleven symbols are looked
    up before it, none after it. *)
Lemma load_stops_at_first_missing_symbol_witness :
  let w := stub_without_brand in
  let r := wrapSymbols 11000 w initial_state in
  outcome r
  = Throw "dlsym failed on nvmlDeviceGetBrand - undefined symbol: nvmlDeviceGetBrand"
  /\
  trace r
  = (open_events w
       ++ dlsym_events (opened_handle w) (firstn 11 (load_order 11000))
       ++ [EvDlsym (opened_handle w) "nvmlDeviceGetBrand"; EvDlerror])%list.
Proof.
  assert (H0 : symbolsLoaded initial_state = 0) by reflexivity.
  assert (Hh : opened_handle stub_without_brand <> NULL)
    by (vm_compute; discriminate).
  assert (Hl : load_order 11000
               = (firstn 11 (load_order 11000)
                    ++ ("nvmlDeviceGetBrand", pDeviceGetBrand)
                    :: skipn 12 (load_order 11000))%list) by reflexivity.
  assert (Hf : forall s' f', In (s', f') (firstn 11 (load_order 11000)) ->
               dlsym_result stub_without_brand
                            (opened_handle stub_without_brand) s' <> NULL).
  { intros s' f' Hin. cbn in Hin.
    repeat (destruct Hin as [[= <- <-]|Hin]; [vm_compute; discriminate|]).
    destruct Hin. }
  assert (Hm : dlsym_result stub_without_brand
                 (opened_handle stub_without_brand) "nvmlDeviceGetBrand"
               = NULL) by reflexivity.
  destruct (load_stops_at_first_missing_symbol
              11000 stub_without_brand initial_state _ _ _ _
              H0 Hh Hl Hf Hm) as (Ho & _ & Ht & _).
  split; [|exact Ht].
  exact (proj1 (Ho "undefined symbol: nvmlDeviceGetBrand" eq_refl)).
Defined.

(** A library in which [nvmlShutdown] is a symbol of value null: [dlsym]
    returns null and records no error, and the load ends in the null
    string of [dlerror]. *)
Lemma null_valued_symbol_is_undefined :
  let w := mkWorld
             (fun _ => 4096%N) (fun name => name)
             (fun _ s => if String.eqb s "nvmlShutdown" then NULL
                         else lookup s full_exports)
             (fun _ _ => None)
             (fun _ _ => 0) (fun _ _ => "Success") (0, 11040) in
  wrapSymbols 11000 w initial_state
  = (Undefined, set_slot pInit 101%N (set_nvmlhandle 4096%N initial_state),
     [EvDlopen "libnvidia-ml.so"; EvDlsym 4096%N "nvmlInit";
      EvDlsym 4096%N "nvmlShutdown"; EvDlerror]).
Proof. vm_compute. reflexivity. Qed.

(** ** A load after a failed one *)

Lemma wrapSymbols_throw_flag V w st msg :
  outcome (wrapSymbols V w st) = Throw msg ->
  symbolsLoaded (final (wrapSymbols V w st)) = 0.
Proof.
  intros Ho. destruct (Z.eq_dec (symbolsLoaded st) 0) as [H0|H0].
  - destruct (wrapSymbols_cases V w st H0)
      as [(_ & E)|[(_ & E & _)|(_ & l1 & s & f & l2 & _ & _ & _ & Hs & _)]].
    + rewrite E. cbn [final fst snd]. now rewrite after_open_symbolsLoaded.
    + rewrite E in Ho. discriminate.
    + exact Hs.
  - rewrite wrapSymbols_loaded in Ho by assumption. discriminate.
Qed.

(** A failed load is not final: the flag is still clear, so the next
    [wrapSymbols] makes a whole new pass (it opens the library again and
    looks every symbol up again), and in an environment where the library
    is complete it succeeds, whatever the failed pass had left behind. *)
Theorem failed_load_can_be_retried V w1 w2 st msg :
  outcome (wrapSymbols V w1 st) = Throw msg ->
  library_complete V w2 = true ->
  let st1 := final (wrapSymbols V w1 st) in
  let r := wrapSymbols V w2 st1 in
  outcome r = Ret DALISuccess /\
  symbolsLoaded (final r) = 1 /\
  trace r
  = (open_events w2 ++ dlsym_events (opened_handle w2) (load_order V))%list /\
  (forall s f, In (s, f) (load_order V) ->
     get_slot f (final r) = dlsym_result w2 (opened_handle w2) s).
Proof.
  intros Ho Hc st1 r.
  assert (H0 : symbolsLoaded st1 = 0)
    by (eapply wrapSymbols_throw_flag; eassumption).
  destruct (wrapSymbols_complete V w2 st1 H0) as [Hiff Hall].
  destruct (Hall Hc) as (Hs & _ & Hr & Ht).
  split; [now apply Hiff|]. split; [exact Hs|]. split; [exact Ht|].
  intros s f Hsf. now destruct (proj1 Hr s f Hsf).
Qed.

(** No library at the first call, the complete library at the second. *)
Lemma failed_load_can_be_retried_witness :
  let st1 := final (wrapSymbols 11000 stub_absent initial_state) in
  let r := wrapSymbols 11000 stub_complete st1 in
  outcome r = Ret DALISuccess /\
  symbolsLoaded (final r) = 1 /\
  trace r
  = (open_events stub_complete
       ++ dlsym_events (opened_handle stub_complete) (load_order 11000))%list
  /\
  (forall s f, In (s, f) (load_order 11000) ->
     get_slot f (final r)
     = dlsym_result stub_complete (opened_handle stub_complete) s).
Proof.
  apply (failed_load_can_be_retried
           11000 stub_absent stub_complete initial_state
           "Failed to open libnvidia-ml.so[.1]");
    reflexivity.
Defined.

(** ** What the calls other than [wrapSymbols] never do *)

Lemma trace_bind_ret {A B} (m : M A) (g : A -> B) w st :
  trace (bind m (fun a => ret (g a)) w st) = trace (m w st).
Proof.
  unfold bind, ret, trace. destruct (m w st) as [[[a| |] s] t];
    cbn [snd]; [apply app_nil_r|reflexivity|reflexivity].
Qed.

Lemma shim_run_no_loader_event F ARGS w st :
  forallb (fun e => negb (is_loader_event e)) (trace (shim_run F ARGS w st))
  = true.
Proof.
  unfold shim_run.
  destruct (N.eqb (get_slot F st) NULL); [reflexivity|].
  destruct (_ =? NVML_SUCCESS); [reflexivity|].
  destruct (N.eqb (nvmlInternalErrorString st) NULL); reflexivity.
Qed.

(** Only [wrapSymbols] loads: a wrapper or the capability query, in any
    state (before a load too), writes no global and makes no call into the
    dynamic loader; over any sequence of such calls the globals stay as they
    are, so a wrapper never brings the library in by itself. *)
Theorem only_wrapSymbols_loads V :
  (forall c w st, not_a_load c = true ->
     final (exec V c w st) = st /\
     forallb (fun e => negb (is_loader_event e)) (trace (exec V c w st))
     = true) /\
  (forall cs st, forallb (fun wc => not_a_load (snd wc)) cs = true ->
     run V cs st = st).
Proof.
  assert (H1 : forall c w st, not_a_load c = true ->
     final (exec V c w st) = st /\
     forallb (fun e => negb (is_loader_event e)) (trace (exec V c w st))
     = true).
  { intros [| |c] w st Hc; [discriminate| |]; cbn [exec];
      rewrite final_bind_ret, trace_bind_ret.
    - split; [apply wrapHasCuda11NvmlFunctions_final|].
      unfold wrapHasCuda11NvmlFunctions. destruct (cuda11_build V); reflexivity.
    - split; [apply wrap_final|]. rewrite wrap_run.
      apply shim_run_no_loader_event. }
  split; [exact H1|].
  intros cs. induction cs as [|[w c] cs IH]; intros st Hcs; [reflexivity|].
  cbn [run]. cbn [forallb snd] in Hcs. apply andb_true_iff in Hcs.
  destruct Hcs as [Hc Hcs]. rewrite (proj1 (H1 c w st Hc)). now apply IH.
Qed.

(** Wrappers called on a fresh process, in any environment. *)
Lemma only_wrapSymbols_loads_witness :
  run 11000 [(stub_complete, CallWrapper WInit);
             (stub_failing, CallHasCuda11NvmlFunctions);
             (stub_complete, CallWrapper (WDeviceGetCount_v2 5))]
      initial_state
  = initial_state.
Proof.
  apply (proj2 (only_wrapSymbols_loads 11000)). reflexivity.
Defined.

(** ** Pointers are never taken back *)

Lemma wrapSymbols_keeps_non_null V w st g :
  get_slot g st <> NULL -> get_slot g (final (wrapSymbols V w st)) <> NULL.
Proof.
  intros Hg. destruct (Z.eq_dec (symbolsLoaded st) 0) as [H0|H0];
    [|now rewrite wrapSymbols_loaded].
  assert (Hres : forall l st',
            slots_resolved w (opened_handle w) l st st' ->
            get_slot g st' <> NULL).
  { intros l st' [Hin Hout].
    destruct (in_dec Slot_eq_dec g (map snd l)) as [Hi|Hi].
    - apply in_map_iff in Hi. destruct Hi as ([s f] & Ef & Hi).
      cbn in Ef. subst f. destruct (Hin _ _ Hi) as [-> Hn]. exact Hn.
    - now rewrite Hout. }
  destruct (wrapSymbols_cases V w st H0)
    as [(_ & E)|[(_ & _ & _ & _ & Hr & _)
                |(_ & l1 & s & f & l2 & _ & _ & _ & _ & _ & Hr & _)]].
  - rewrite E. cbn [final fst snd]. now rewrite after_open_get_slot.
  - eapply Hres; eassumption.
  - eapply Hres; eassumption.
Qed.

(** No call ever sets a function pointer back to null: there is no
    teardown, and a later pass can only replace an address by another
    address.  So a pointer that is set stays set over any sequence of
    calls, failed loads included. *)
Theorem pointers_never_reset V cs st g :
  get_slot g st <> NULL -> get_slot g (run V cs st) <> NULL.
Proof.
  revert st. induction cs as [|[w c] cs IH]; intros st Hg; [exact Hg|].
  cbn [run]. apply IH.
  destruct c as [| |c]; cbn [exec]; rewrite final_bind_ret.
  - now apply wrapSymbols_keeps_non_null.
  - now rewrite wrapHasCuda11NvmlFunctions_final.
  - now rewrite wrap_final.
Qed.

(** [nvmlInternalInit], set by a load that failed at [nvmlDeviceGetIndex],
    is still set after a second load that fails the same way and a call of
    [wrapNvmlInit]. *)
Lemma pointers_never_reset_witness :
  let st := final (wrapSymbols 11000 stub_without_index initial_state) in
  get_slot pInit st <> NULL /\
  get_slot pInit
    (run 11000 [(stub_without_index, CallWrapSymbols);
                (stub_without_index, CallWrapper WInit)] st) <> NULL.
Proof.
  assert (H : get_slot pInit
                (final (wrapSymbols 11000 stub_without_index
                                    initial_state)) <> NULL)
    by (vm_compute; discriminate).
  split; [exact H|].
  apply (pointers_never_reset 11000 _ _ pInit H).
Defined.

(** ** The flag, the handle and the capability query *)

Lemma NoDup_app_disjoint {A} (l l' : list A) a :
  NoDup (l ++ l') -> In a l -> In a l' -> False.
Proof.
  induction l as [|x l IH]; intros ND Hl Hl'; [destruct Hl|].
  cbn in ND. inversion ND as [|? ? Hx ND']; subst.
  destruct Hl as [->|Hl]; [|now apply IH].
  apply Hx. apply in_or_app. now right.
Qed.

Lemma last_in_suffix {A} (l1 l2 p : list A) x a :
  (l1 ++ x :: l2 = p ++ [a])%list -> In a (x :: l2).
Proof.
  revert p. induction l1 as [|y l1 IH]; intros p E.
  - cbn in E. rewrite E. apply in_or_app. right. now left.
  - destruct p as [|z p]; cbn in E.
    + injection E as _ E. now destruct l1.
    + injection E as _ E. now apply (IH p).
Qed.

(** The last pointer of a CUDA 11 pass is in no proper prefix of the load
    order of any build. *)
Lemma last_pointer_not_in_prefix V l1 x l2 :
  load_order V = (l1 ++ x :: l2)%list ->
  ~ In pDeviceGetCudaComputeCapability (map snd l1).
Proof.
  intros Hl Hin. pose proof (load_order_NoDup V) as ND.
  destruct (cuda11_build V) eqn:Hb.
  - assert (Hs : In pDeviceGetCudaComputeCapability (map snd (x :: l2))).
    { apply (in_map snd _ ("nvmlDeviceGetCudaComputeCapability",
                           pDeviceGetCudaComputeCapability)).
      apply (last_in_suffix l1 l2
               (required_symbols ++ firstn 4 cuda11_symbols)%list).
      rewrite <- Hl. unfold load_order. rewrite Hb. reflexivity. }
    rewrite Hl, map_app in ND.
    exact (NoDup_app_disjoint _ _ _ ND Hin Hs).
  - apply (cuda11_slots_not_loaded V pDeviceGetCudaComputeCapability Hb);
      [cbn; tauto|].
    eapply in_prefix_in_load_order; eassumption.
Qed.

Lemma last_pointer_invariant_reachable V st :
  reachable V st -> last_pointer_invariant st.
Proof.
  induction 1 as [|st w c _ IH _]; [intros _; reflexivity|].
  assert (Hw : last_pointer_invariant (final (wrapSymbols V w st))).
  { destruct (Z.eq_dec (symbolsLoaded st) 0) as [H0|H0];
      [|now rewrite wrapSymbols_loaded].
    destruct (wrapSymbols_cases V w st H0)
      as [(_ & E)|[(_ & _ & Hs & _)
                  |(_ & l1 & s & f & l2 & Hl & _ & _ & _ & _ & Hr & _)]].
    - rewrite E. cbn [final fst snd]. intros _.
      rewrite after_open_get_slot. now apply IH.
    - intros Hz. rewrite Hs in Hz. discriminate.
    - intros _. rewrite (proj2 Hr); [now apply IH|].
      eapply last_pointer_not_in_prefix; eassumption. }
  destruct c as [| |c]; cbn [exec]; rewrite final_bind_ret.
  - exact Hw.
  - now rewrite wrapHasCuda11NvmlFunctions_final.
  - now rewrite wrap_final.
Qed.

(** In every state of a process the capability query is true exactly when
    the build is a CUDA 11 one and the load flag is set: a load that
    succeeds has resolved the whole group, and a load that fails has not
    reached its last symbol, so once loaded the query cannot be false. *)
Theorem capability_query_is_load_flag V w st :
  reachable V st ->
  exists b,
    wrapHasCuda11NvmlFunctions V w st = (Ret b, st, []) /\
    (b = true <-> cuda11_build V = true /\ symbolsLoaded st <> 0).
Proof.
  intros Hr. unfold wrapHasCuda11NvmlFunctions.
  destruct (cuda11_build V) eqn:Hb.
  - eexists. split; [reflexivity|]. unfold non_null.
    rewrite !andb_true_iff, !negb_true_iff, !N.eqb_neq. split.
    + intros (((_ & _) & Hcc) & _). split; [reflexivity|]. intros H0.
      apply Hcc. now apply (last_pointer_invariant_reachable V st Hr).
    + intros [_ Hl].
      pose proof (loaded_invariant_reachable V st Hr Hl) as Hall.
      assert (Hin : forall e, In e cuda11_symbols -> In e (load_order V)).
      { intros e He. unfold load_order. rewrite Hb. apply in_or_app.
        now right. }
      repeat split;
        [apply (Hall "nvmlDeviceGetCount_v2" pDeviceGetCount_v2)
        |apply (Hall "nvmlDeviceGetHandleByIndex_v2"
                     pDeviceGetHandleByIndex_v2)
        |apply (Hall "nvmlDeviceGetCudaComputeCapability"
                     pDeviceGetCudaComputeCapability)
        |apply (Hall "nvmlDeviceGetBrand" pDeviceGetBrand)];
        apply Hin; cbn; tauto.
  - exists false. split; [reflexivity|]. split; [discriminate|].
    intros [Hf _]. discriminate.
Qed.

(** After a load that failed at [nvmlDeviceGetBrand]: flag clear, query
    false. *)
Lemma capability_query_is_load_flag_witness :
  let st := final (exec 11000 CallWrapSymbols stub_without_brand
                        initial_state) in
  exists b,
    wrapHasCuda11NvmlFunctions 11000 stub_complete st = (Ret b, st, []) /\
    (b = true <-> cuda11_build 11000 = true /\ symbolsLoaded st <> 0).
Proof.
  apply (capability_query_is_load_flag 11000 stub_complete).
  apply reachable_call; [apply reachable_start|]. vm_compute. discriminate.
Defined.

(** In every state of a process [symbolsLoaded] is 0 or 1, and it is 1
    only with a non-null library handle in [nvmlhandle]. *)
Theorem load_flag_is_zero_or_one V st :
  reachable V st -> flag_invariant st.
Proof.
  induction 1 as [|st w c _ IH _]; [now left|].
  assert (Hw : flag_invariant (final (wrapSymbols V w st))).
  { destruct (Z.eq_dec (symbolsLoaded st) 0) as [H0|H0];
      [|now rewrite wrapSymbols_loaded].
    destruct (wrapSymbols_cases V w st H0)
      as [(_ & E)|[(Hh & _ & Hs & HH & _)
                  |(_ & l1 & s & f & l2 & _ & _ & _ & Hs & _)]].
    - left. rewrite E. cbn [final fst snd].
      now rewrite after_open_symbolsLoaded.
    - right. split; [exact Hs|]. now rewrite HH.
    - now left. }
  destruct c as [| |c]; cbn [exec]; rewrite final_bind_ret.
  - exact Hw.
  - now rewrite wrapHasCuda11NvmlFunctions_final.
  - now rewrite wrap_final.
Qed.

(** After a successful load. *)
Lemma load_flag_is_zero_or_one_witness :
  flag_invariant
    (final (exec 11000 CallWrapSymbols stub_complete initial_state)).
Proof.
  apply (load_flag_is_zero_or_one 11000).
  apply reachable_call; [apply reachable_start|]. vm_compute. discriminate.
Defined.

(** ** Dispatch after a successful load *)

(** In a process whose load has succeeded, every wrapper whose symbol is in
    the load order of the build goes through a non-null pointer: it calls
    the native function exactly once, with the arguments as given, writes
    no global, and returns [DALISuccess] or [DALIError] according to the
    native status. *)
Theorem loaded_wrappers_dispatch V st c w :
  reachable V st ->
  symbolsLoaded st <> 0 ->
  In (slot_of c) (map snd (load_order V)) ->
  let f := get_slot (slot_of c) st in
  let r := native_status w f (args_of c) in
  f <> NULL /\
  exists t,
    wrap c w st
    = (Ret (if r =? NVML_SUCCESS then DALISuccess else DALIError), st,
       EvNative f (args_of c) :: t) /\
    forall f' args', ~ In (EvNative f' args') t.
Proof.
  intros Hr Hl Hin f r.
  pose proof (loaded_invariant_reachable V st Hr Hl) as Hall.
  assert (Hf : f <> NULL).
  { apply in_map_iff in Hin. destruct Hin as ([s g] & Eg & Hin).
    cbn in Eg. subst f. rewrite <- Eg. eapply Hall; eassumption. }
  assert (Hes : nvmlInternalErrorString st <> NULL)
    by (apply (Hall "nvmlErrorString" pErrorString),
          ErrorString_in_load_order).
  split; [exact Hf|]. rewrite wrap_run. unfold shim_run. fold f r.
  destruct (N.eqb_spec f NULL) as [|_]; [contradiction|].
  destruct (N.eqb_spec (nvmlInternalErrorString st) NULL) as [|_];
    [contradiction|].
  destruct (r =? NVML_SUCCESS).
  - exists []. split; [reflexivity|]. intros f' a' [].
  - eexists. split; [reflexivity|]. intros f' a' [H|[H|[]]]; discriminate.
Qed.

(** [wrapNvmlDeviceGetHandleByIndex] after a load, natives failing. *)
Lemma loaded_wrappers_dispatch_witness :
  let st := final (exec 11000 CallWrapSymbols stub_failing initial_state) in
  let c := WDeviceGetHandleByIndex 0 4242 in
  get_slot (slot_of c) st <> NULL /\
  exists t,
    wrap c stub_failing st
    = (Ret DALIError, st, EvNative (get_slot (slot_of c) st) [0; 4242] :: t)
    /\ forall f' args', ~ In (EvNative f' args') t.
Proof.
  apply (loaded_wrappers_dispatch 11000 _ (WDeviceGetHandleByIndex 0 4242)
           stub_failing).
  - apply reachable_call; [apply reachable_start|]. vm_compute. discriminate.
  - vm_compute. discriminate.
  - cbn. tauto.
Defined.

(** ** The version-gated line *)

(** What one [LOAD_SYM_MIN_DRIVER] line does, the driver query succeeding
    and the [int] arithmetic of the threshold not overflowing.  With a
    driver older than [1000 * cuda_M + 10 * cuda_m] it sets its pointer to
    null (whatever it held), calls no [dlsym] and cannot fail.  With a
    recent enough driver it is a [LOAD_SYM] line: the pointer takes the
    address found; or, [dlsym] returning null, no pointer is written and
    the line throws with the loader's text, or has undefined behaviour when
    the loader recorded none.  No other pointer is written in any case. *)
Theorem version_gated_line w st symbol f cuda_M cuda_m :
  fst (cuda_driver_version w) = 0 ->
  in_int (snd (cuda_driver_version w)) ->
  in_int (1000 * cuda_M) -> in_int (10 * cuda_m) ->
  in_int (1000 * cuda_M + 10 * cuda_m) ->
  let r := LOAD_SYM_MIN_DRIVER nvmlhandle symbol f cuda_M cuda_m w st in
  let h := nvmlhandle st in
  let p := dlsym_result w h symbol in
  let version := snd (cuda_driver_version w) in
  (forall g, g <> f -> get_slot g (final r) = get_slot g st) /\
  (version < 1000 * cuda_M + 10 * cuda_m ->
   outcome r = Ret tt /\ get_slot f (final r) = NULL /\
   trace r = [EvCudaDriverGetVersion]) /\
  (1000 * cuda_M + 10 * cuda_m <= version -> p <> NULL ->
   outcome r = Ret tt /\ get_slot f (final r) = p /\
   trace r = [EvCudaDriverGetVersion; EvDlsym h symbol]) /\
  (1000 * cuda_M + 10 * cuda_m <= version -> p = NULL ->
   get_slot f (final r) = get_slot f st /\
   trace r = [EvCudaDriverGetVersion; EvDlsym h symbol; EvDlerror] /\
   (forall err, dlsym_message w h symbol = Some err ->
      outcome r = Throw ("dlsym failed on " ++ symbol ++ " - " ++ err)) /\
   (dlsym_message w h symbol = None -> outcome r = Undefined)).
Proof.
  intros Hc Hver HM Hm Hsum r h p version. subst r.
  assert (Ht : driver_threshold cuda_M cuda_m = 1000 * cuda_M + 10 * cuda_m).
  { apply driver_threshold_exact; auto; unfold in_int in *; lia. }
  assert (Hi : int32 (snd (cuda_driver_version w)) = version)
    by (apply int32_in_int; exact Hver).
  destruct (Z.lt_ge_cases version (1000 * cuda_M + 10 * cuda_m)) as [Hv|Hv].
  - rewrite LOAD_SYM_MIN_DRIVER_insufficient by (rewrite ?Hi, ?Ht; auto).
    cbn [outcome final trace fst snd]. split; [|split; [|split]].
    + intros g Hg. apply get_set_other. congruence.
    + intros _. split; [reflexivity|]. split; [apply get_set_same|reflexivity].
    + intros Hv'. lia.
    + intros Hv'. lia.
  - rewrite LOAD_SYM_MIN_DRIVER_sufficient by (rewrite ?Hi, ?Ht; auto).
    rewrite LOAD_SYM_run. cbv zeta. fold h p.
    destruct (N.eqb_spec p NULL) as [Ep|Ep];
      cbn [outcome final trace fst snd]; (split; [|split; [|split]]).
    + intros g _. apply get_slot_set_dl_error.
    + intros Hv'. lia.
    + intros _ Hp. contradiction.
    + intros _ _. split; [apply get_slot_set_dl_error|].
      split; [reflexivity|]. unfold missing_symbol_outcome. split.
      * intros err He. now rewrite He.
      * intros He. now rewrite He.
    + intros g Hg. apply get_set_other. congruence.
    + intros Hv'. lia.
    + intros _ _. split; [reflexivity|].
      split; [apply get_set_same|reflexivity].
    + intros _ Hp. contradiction.
Qed.

(** The CUDA 11.0 gate on [nvmlDeviceGetBrand] with a CUDA 10.2 driver, on
    a state where the pointer is set: the line clears it. *)
Lemma version_gated_line_witness :
  let st := final (wrapSymbols 11000 stub_complete initial_state) in
  let r := LOAD_SYM_MIN_DRIVER nvmlhandle "nvmlDeviceGetBrand"
                               pDeviceGetBrand 11 0 stub_without_brand st in
  get_slot pDeviceGetBrand st = 112%N /\
  outcome r = Ret tt /\ get_slot pDeviceGetBrand (final r) = NULL /\
  trace r = [EvCudaDriverGetVersion].
Proof.
  split; [reflexivity|].
  apply (version_gated_line
           stub_without_brand
           (final (wrapSymbols 11000 stub_complete initial_state))
           "nvmlDeviceGetBrand" pDeviceGetBrand 11 0);
    try reflexivity; try (vm_compute; split; discriminate).
Defined.
